(** * Scikit-learn tree to TF-DF converter: a shallow embedding

    Embedding of
    [tensorflow_decision_forests/contrib/scikit_learn_model_converter/
     scikit_learn_model_converter.py]
    together with the properties its design document states about it.

    Conventions of the embedding:
    - Python integers are [Z]; floating-point numbers (thresholds, feature
      values, regression means, class counts) are abstracted by exact
      rationals [Q], so rounding is not modelled;
    - a Python call that may raise returns an [outcome]; the recursion of
      [_convert_sklearn_node_to_tfdf_node] is driven by a [fuel] argument and
      [OutOfFuel] stands for a recursion that has not finished within it (the
      interpreter's recursion limit is not modelled);
    - the file system touched by [convert] is an explicit finite map from
      directory paths to directory contents. *)

From Stdlib Require Import ZArith QArith Lia.
From Stdlib Require Import DecimalString DecimalZ.
From stdpp Require Import base option list relations strings gmap stringmap.

Set Warnings "-register-all,-clear-no-such-hyp".
Local Open Scope Z_scope.

(** ** Exceptions and outcomes *)

Inductive exn : Type :=
| IndexError
| AttributeError (attr : string)
| ValueError (msg : string)
| NotImplementedError (msg : string)
| OSError (path : string).

Inductive outcome (A : Type) : Type :=
| Ok (a : A)
| Raise (e : exn)
| OutOfFuel.
Arguments Ok {A} a.
Arguments Raise {A} e.
Arguments OutOfFuel {A}.

(** Sequencing: an exception (or running out of fuel) in the first
    computation is what the whole computation does. *)
Global Instance outcome_bind : MBind outcome := λ A B k m,
  match m with
  | Ok a => k a
  | Raise e => Raise e
  | OutOfFuel => OutOfFuel
  end.

(** ** Python list subscripting

    [l[i]] with an integer [i]: a non-negative [i] counts from the front, a
    negative one from the back, anything else raises [IndexError] (here
    [None]). *)

Definition list_getitem {A} (l : list A) (i : Z) : option A :=
  let n := Z.of_nat (length l) in
  if decide (0 ≤ i) then l !! Z.to_nat i
  else if decide (- n ≤ i) then l !! Z.to_nat (n + i)
  else None.

(** ** The target tree ([tfdf.py_tree]) *)

Inductive ColumnType : Type := NUMERICAL.

Record SimpleColumnSpec : Type := {
  name : string;
  type : ColumnType;
  col_idx : Z
}.

Record NumericalHigherThanCondition : Type := {
  cond_feature : SimpleColumnSpec;
  cond_threshold : Q;
  missing_evaluation : bool
}.

Inductive AbstractValue : Type :=
| RegressionValue (v : Q)
| ProbabilityValue (probability : list Q).

Inductive AbstractNode : Type :=
| LeafNode (leaf_value : AbstractValue)
| NonLeafNode (condition : NumericalHigherThanCondition)
              (pos_child neg_child : option AbstractNode).

(** ** The flat source tree

    One [node_dict] per row of the estimator's node array, as built by the
    loop of [_convert_sklearn_tree_to_tfdf_pytree]: the fields of the row the
    converter reads, plus the ["value"] entry the loop adds. *)

Record node_dict : Type := {
  left_child : Z;
  right_child : Z;
  feature : Z;
  threshold : Q;
  value : AbstractValue
}.

(** ** Decimal rendering of integers ([str] and [int]) *)

Definition py_str (z : Z) : string := NilZero.string_of_int (Z.to_int z).

Definition py_int (s : string) : option Z :=
  Z.of_int <$> NilZero.int_of_string s.

(** ** [_convert_sklearn_node_to_tfdf_node] *)

Fixpoint _convert_sklearn_node_to_tfdf_node
    (fuel : nat) (node_index : Z) (nodes : list node_dict)
    : outcome (option AbstractNode) :=
  if decide (node_index = -1) then Ok None
  else
    match fuel with
    | O => OutOfFuel
    | S fuel' =>
      match list_getitem nodes node_index with
      | None => Raise IndexError
      | Some node =>
        neg_child ← _convert_sklearn_node_to_tfdf_node
                      fuel' (left_child node) nodes ;
        pos_child ← _convert_sklearn_node_to_tfdf_node
                      fuel' (right_child node) nodes ;
        match pos_child with
        | Some _ =>
          let feature := {| name := py_str (feature node);
                            type := NUMERICAL;
                            col_idx := feature node |} in
          Ok (Some (NonLeafNode
                      {| cond_feature := feature;
                         cond_threshold := threshold node;
                         missing_evaluation := false |}
                      pos_child neg_child))
        | None => Ok (Some (LeafNode (value node)))
        end
      end
    end.

(** ** Routing an example through a target tree

    Modelled from the spec: the target runtime's evaluation of a tree is not
    part of the converter's source. A decision node sends the example to its
    positive child iff the value of the condition's feature is strictly
    greater than the threshold; a missing value is sent where
    [missing_evaluation] says. [get] reads the feature a column
    specification denotes from the example. *)

Definition higher_than (x t : Q) : bool :=
  (Qnum t * QDen x <? Qnum x * QDen t)%Z.

Definition eval_condition (get : SimpleColumnSpec → option Q)
    (c : NumericalHigherThanCondition) : bool :=
  match get (cond_feature c) with
  | Some x => higher_than x (cond_threshold c)
  | None => missing_evaluation c
  end.

Fixpoint route (get : SimpleColumnSpec → option Q) (n : AbstractNode)
    : option AbstractValue :=
  match n with
  | LeafNode v => Some v
  | NonLeafNode c pos neg =>
    if eval_condition get c
    then match pos with Some p => route get p | None => None end
    else match neg with Some q => route get q | None => None end
  end.

(** Reading a column of a dense feature row. *)
Definition row_get (x : list Q) (k : Z) : option Q :=
  if decide (0 ≤ k) then x !! Z.to_nat k else None.

(** ** Flat-array routing of the source library

    Follows the spec's words: a node is a leaf iff [left_child = -1]; at an
    inner node go to [left_child] iff the feature value is not greater than
    the threshold, else to [right_child]. Returns the leaf reached. *)

Fixpoint flat_route (fuel : nat) (nodes : list node_dict) (i : Z)
    (x : list Q) : outcome node_dict :=
  match fuel with
  | O => OutOfFuel
  | S fuel' =>
    match list_getitem nodes i with
    | None => Raise IndexError
    | Some node =>
      if decide (left_child node = -1) then Ok node
      else
        match row_get x (feature node) with
        | None => Raise IndexError
        | Some v =>
          if negb (higher_than v (threshold node))
          then flat_route fuel' nodes (left_child node) x
          else flat_route fuel' nodes (right_child node) x
        end
    end
  end.

(** ** Task types and the estimator surface the converter reads *)

Inductive TaskType : Type :=
| UNKNOWN
| SCALAR_REGRESSION
| SINGLE_LABEL_CLASSIFICATION.

(** A Python class: its qualified name and the classes that follow it in
    its method resolution order. *)
Record py_class : Type := {
  qualname : string;
  bases : list string
}.

Definition mro (c : py_class) : list string := qualname c :: bases c.

(** [repr] of a class object, as an f-string renders [type(x)]. *)
Definition class_repr (c : py_class) : string :=
  "<class '" +:+ qualname c +:+ "'>".

(** A row of [tree_.__getstate__()["nodes"]], restricted to the fields the
    converter reads. *)
Record node_row : Type := {
  row_left_child : Z;
  row_right_child : Z;
  row_feature : Z;
  row_threshold : Q
}.

(** [tree_.__getstate__()]: the node rows and the parallel array of per-node
    statistics, indexed by output and then by class. *)
Record tree_state : Type := {
  nodes : list node_row;
  values : list (list (list Q))
}.

Inductive class_label : Type :=
| IntLabel (z : Z)
| StrLabel (s : string).

Definition label_str (c : class_label) : string :=
  match c with
  | IntLabel z => py_str z
  | StrLabel s => s
  end.

(** An attribute that has not been set is [None]; reading it raises
    [AttributeError]. *)
Record estimator : Type := {
  class_of : py_class;
  tree_ : option tree_state;
  n_outputs_ : option Z;
  n_classes_ : option Z;
  classes_ : option (list class_label);
  n_features_in_ : option Z
}.

Definition getattr {A} (attr : string) (field : option A) : outcome A :=
  match field with
  | Some a => Ok a
  | None => Raise (AttributeError attr)
  end.

Definition getitem {A} (l : list A) (i : Z) : outcome A :=
  match list_getitem l i with
  | Some a => Ok a
  | None => Raise IndexError
  end.

(** ** [_get_sklearn_tree_task_type] *)

(** [sklearn_tree.n_outputs_ == 1] *)
Definition has_one_output (sklearn_tree : estimator) : outcome bool :=
  n ← getattr "n_outputs_" (n_outputs_ sklearn_tree);
  Ok (bool_decide (n = 1)).

(** [hasattr(sklearn_tree, "n_classes_")] *)
Definition has_n_classes (sklearn_tree : estimator) : bool :=
  bool_decide (is_Some (n_classes_ sklearn_tree)).

Definition _get_sklearn_tree_task_type (sklearn_tree : estimator)
    : outcome TaskType :=
  is_classifier ←
    (if has_n_classes sklearn_tree then has_one_output sklearn_tree
     else Ok false);
  if is_classifier : bool then Ok SINGLE_LABEL_CLASSIFICATION
  else
    is_regressor ← has_one_output sklearn_tree;
    if is_regressor : bool then Ok SCALAR_REGRESSION else Ok UNKNOWN.

(** ** [_convert_sklearn_tree_to_tfdf_pytree] *)

Record Tree : Type := { root : option AbstractNode }.

Definition Qsum (l : list Q) : Q := foldr Qplus 0%Q l.

(** [target_value[0] / target_value[0].sum()] *)
Definition normalise (counts : list Q) : list Q :=
  (λ c, c / Qsum counts)%Q <$> counts.

Definition unsupported_task_message : string :=
  "Only scalar regression and single-label classification are supported.".

Definition not_fitted_message : string :=
  "Scikit-Learn model must be fit to data before converting.".

(** The value the loop stores under ["value"] for one node. *)
Definition node_value (task_type : TaskType) (target_value : list (list Q))
    : outcome AbstractValue :=
  match task_type with
  | SCALAR_REGRESSION =>
    output ← getitem target_value 0;
    v ← getitem output 0;
    Ok (RegressionValue v)
  | SINGLE_LABEL_CLASSIFICATION =>
    counts ← getitem target_value 0;
    Ok (ProbabilityValue (normalise counts))
  | UNKNOWN => Raise (ValueError unsupported_task_message)
  end.

(** The loop over [zip(nodes, values)]: nodes are handled in order and the
    first exception ends the loop. *)
Fixpoint collect_nodes (task_type : TaskType)
    (rows : list (node_row * list (list Q))) : outcome (list node_dict) :=
  match rows with
  | [] => Ok []
  | (node_properties, target_value) :: rest =>
    v ← node_value task_type target_value;
    nodes ← collect_nodes task_type rest;
    Ok ({| left_child := row_left_child node_properties;
           right_child := row_right_child node_properties;
           feature := row_feature node_properties;
           threshold := row_threshold node_properties;
           value := v |} :: nodes)
  end.

Definition _convert_sklearn_tree_to_tfdf_pytree (fuel : nat)
    (sklearn_tree : estimator) : outcome Tree :=
  match tree_ sklearn_tree with
  | None => Raise (ValueError not_fitted_message)
  | Some sklearn_tree_data =>
    task_type ← _get_sklearn_tree_task_type sklearn_tree;
    nodes ← collect_nodes task_type
              (zip (nodes sklearn_tree_data) (values sklearn_tree_data));
    root_node ← _convert_sklearn_node_to_tfdf_node fuel 0 nodes;
    Ok {| root := root_node |}
  end.

(** ** The builder and the loader

    Modelled from the spec: the builder accepts an objective and a target
    directory, has "append one tree" and "finalize", and finalize persists a
    directory-structured artifact; the loader turns such a directory into a
    live model. Their own validation of trees and objectives is not
    modelled. *)

Inductive Objective : Type :=
| RegressionObjective (label : string)
| ClassificationObjective (label : string) (classes : list string).

Record tfdf_model : Type := {
  model_objective : Objective;
  model_trees : list Tree
}.

Inductive directory : Type :=
| EmptyDirectory
| SavedModel (m : tfdf_model).

Abbreviation filesystem := (gmap string directory).

(** Code that reads or writes the file system threads it explicitly. *)
Definition io (A : Type) : Type := filesystem → outcome A * filesystem.

Global Instance io_bind : MBind io := λ A B k m fs,
  match m fs with
  | (Ok a, fs') => k a fs'
  | (Raise e, fs') => (Raise e, fs')
  | (OutOfFuel, fs') => (OutOfFuel, fs')
  end.

Definition pure_call {A} (o : outcome A) : io A := λ fs, (o, fs).

Record CARTBuilder : Type := {
  builder_path : string;
  builder_objective : Objective;
  builder_trees : list Tree
}.

Definition new_CARTBuilder (path : string) (objective : Objective)
    : CARTBuilder :=
  {| builder_path := path;
     builder_objective := objective;
     builder_trees := [] |}.

Definition add_tree (b : CARTBuilder) (t : Tree) : CARTBuilder :=
  {| builder_path := builder_path b;
     builder_objective := builder_objective b;
     builder_trees := builder_trees b ++ [t] |}.

Definition close (b : CARTBuilder) : io unit := λ fs,
  (Ok (),
   <[builder_path b :=
       SavedModel {| model_objective := builder_objective b;
                     model_trees := builder_trees b |}]> fs).

Definition load_model (path : string) : io tfdf_model := λ fs,
  match fs !! path with
  | Some (SavedModel m) => (Ok m, fs)
  | _ => (Raise (OSError path), fs)
  end.

(** ** [_build_tfdf_model]

    [functools.singledispatch] picks the implementation registered for the
    first class of the argument's method resolution order that has one; the
    undecorated function is the implementation of [object]. *)

Inductive implementation : Type :=
| default_implementation
| regression_implementation
| classification_implementation.

Definition DecisionTreeRegressor : string :=
  "sklearn.tree.DecisionTreeRegressor".
Definition ExtraTreeRegressor : string :=
  "sklearn.tree.ExtraTreeRegressor".
Definition DecisionTreeClassifier : string :=
  "sklearn.tree.DecisionTreeClassifier".
Definition ExtraTreeClassifier : string :=
  "sklearn.tree.ExtraTreeClassifier".

Definition registry : gmap string implementation :=
  list_to_map [ (DecisionTreeRegressor, regression_implementation);
                (ExtraTreeRegressor, regression_implementation);
                (DecisionTreeClassifier, classification_implementation);
                (ExtraTreeClassifier, classification_implementation) ].

Fixpoint dispatch (classes : list string) : implementation :=
  match classes with
  | [] => default_implementation
  | c :: rest =>
    match registry !! c with
    | Some impl => impl
    | None => dispatch rest
    end
  end.

Definition regression_classes : list string :=
  [ DecisionTreeRegressor; ExtraTreeRegressor ].

Definition classification_classes : list string :=
  [ DecisionTreeClassifier; ExtraTreeClassifier ].

Definition supported_classes : list string :=
  regression_classes ++ classification_classes.

Definition unsupported_model_message (c : py_class) : string :=
  "Can't build a TFDF model for " +:+ class_repr c.

Definition build_default (sklearn_model : estimator) (path : string)
    : io tfdf_model :=
  pure_call (Raise (NotImplementedError
                      (unsupported_model_message (class_of sklearn_model)))).

Definition build_regression (fuel : nat) (sklearn_model : estimator)
    (path : string) : io tfdf_model :=
  let objective := RegressionObjective "label" in
  pytree ← pure_call (_convert_sklearn_tree_to_tfdf_pytree fuel sklearn_model);
  let cart_builder := new_CARTBuilder path objective in
  let cart_builder := add_tree cart_builder pytree in
  _ ← close cart_builder;
  load_model path.

Definition build_classification (fuel : nat) (sklearn_model : estimator)
    (path : string) : io tfdf_model :=
  classes ← pure_call (getattr "classes_" (classes_ sklearn_model));
  let objective := ClassificationObjective "label" (label_str <$> classes) in
  pytree ← pure_call (_convert_sklearn_tree_to_tfdf_pytree fuel sklearn_model);
  let cart_builder := new_CARTBuilder path objective in
  let cart_builder := add_tree cart_builder pytree in
  _ ← close cart_builder;
  load_model path.

Definition _build_tfdf_model (fuel : nat) (sklearn_model : estimator)
    (path : string) : io tfdf_model :=
  match dispatch (mro (class_of sklearn_model)) with
  | default_implementation => build_default sklearn_model path
  | regression_implementation => build_regression fuel sklearn_model path
  | classification_implementation =>
    build_classification fuel sklearn_model path
  end.

(** ** The loaded model's signature and call

    Modelled from the spec: the loaded model's default signature names the
    feature columns it expects, which are the columns that appear in at least
    one split condition; calling it on a mapping from names to values routes
    the example through its single tree, reading each feature by name. *)

Fixpoint split_features (n : AbstractNode) : list SimpleColumnSpec :=
  match n with
  | LeafNode _ => []
  | NonLeafNode c pos neg =>
    cond_feature c
      :: match pos with Some p => split_features p | None => [] end
      ++ match neg with Some q => split_features q | None => [] end
  end.

Definition tree_features (t : Tree) : list SimpleColumnSpec :=
  match root t with
  | Some n => split_features n
  | None => []
  end.

Definition serving_signature (m : tfdf_model) : list string :=
  remove_dups (name <$> (model_trees m ≫= tree_features)).


Definition call_tfdf_model (m : tfdf_model) (inputs : gmap string Q)
    : option AbstractValue :=
  match model_trees m with
  | [ {| root := Some n |} ] => route (λ spec, inputs !! name spec) n
  | _ => None
  end.

(** ** [convert] *)

(** [tempfile.TemporaryDirectory] used as a context manager around [body]:
    a directory that did not exist is created, and it is removed with all it
    holds when the block is left, by return or by exception. *)
Definition mkdtemp (fs : filesystem) : string := fresh_string "/tmp/tmp" fs.

Definition with_TemporaryDirectory {A} (body : string → io A) : io A :=
  λ fs,
    let path := mkdtemp fs in
    match body path (<[path := EmptyDirectory]> fs) with
    | (OutOfFuel, fs') => (OutOfFuel, fs')
    | (r, fs') => (r, delete path fs')
    end.

(** Truth value of an [Optional] path. *)
Definition truthy (intermediate_write_path : option string) : bool :=
  match intermediate_write_path with
  | None => false
  | Some p => bool_decide (p ≠ "")
  end.

(** The model [convert] returns: a dense input of [input_width] columns,
    sliced into the columns [feature_indices] names and fed to
    [inner_model]. *)
Record keras_model : Type := {
  input_width : Z;
  inner_model : tfdf_model;
  feature_indices : list string
}.

(** [template_input[:, int(i)]] on an input of [width] columns: the literal
    must parse and the index must fall in the input. *)
Definition slice_column (width : Z) (i : string) : outcome Z :=
  match py_int i with
  | None => Raise (ValueError "invalid literal for int()")
  | Some k =>
    if decide (- width ≤ k < width) then Ok k
    else Raise (ValueError "slice index out of bounds")
  end.

Fixpoint slice_columns (width : Z) (feature_indices : list string)
    : outcome (list (string * Z)) :=
  match feature_indices with
  | [] => Ok []
  | i :: rest =>
    k ← slice_column width i;
    ks ← slice_columns width rest;
    Ok ((i, k) :: ks)
  end.

(** The statements after the [with] block: the returned model takes the
    full design matrix and passes on the columns the loaded model expects. *)
Definition wrap_model (sklearn_model : estimator) (tfdf_model : tfdf_model)
    : outcome keras_model :=
  n_features ← getattr "n_features_in_" (n_features_in_ sklearn_model);
  let feature_indices := serving_signature tfdf_model in
  _ ← slice_columns n_features feature_indices;
  Ok {| input_width := n_features;
        inner_model := tfdf_model;
        feature_indices := feature_indices |}.

Definition convert (fuel : nat) (sklearn_model : estimator)
    (intermediate_write_path : option string) : io keras_model :=
  tfdf_model ←
    (if truthy intermediate_write_path
     then _build_tfdf_model fuel sklearn_model
            (default "" intermediate_write_path)
     else with_TemporaryDirectory (_build_tfdf_model fuel sklearn_model));
  pure_call (wrap_model sklearn_model tfdf_model).

(** Calling the returned model on one row of the input matrix. *)
Definition sliced_inputs (feature_indices : list string) (row : list Q)
    : gmap string Q :=
  list_to_map
    (omap (λ i, k ← py_int i; v ← list_getitem row k; Some (i, v))
          feature_indices).

Definition predict (m : keras_model) (row : list Q) : option AbstractValue :=
  if decide (Z.of_nat (length row) = input_width m)
  then call_tfdf_model (inner_model m)
         (sliced_inputs (feature_indices m) row)
  else None.

(** ** Well-formed flat trees *)

Definition valid_index (nodes : list node_dict) (i : Z) : Prop :=
  0 ≤ i < Z.of_nat (length nodes).

Definition child_ok (nodes : list node_dict) (c : Z) : Prop :=
  c = -1 ∨ valid_index nodes c.

(** Each child index is [-1] or a valid index. *)
Definition children_in_range (nodes : list node_dict) : Prop :=
  Forall (λ nd, child_ok nodes (left_child nd)
                ∧ child_ok nodes (right_child nd)) nodes.

(** A node has both children or none. *)
Definition leaf_encoding (nodes : list node_dict) : Prop :=
  Forall (λ nd, left_child nd = -1 ↔ right_child nd = -1) nodes.

(** Split nodes test a column of a row of [width] columns. *)
Definition features_in_range (nodes : list node_dict) (width : Z) : Prop :=
  Forall (λ nd, right_child nd ≠ -1 → 0 ≤ feature nd < width) nodes.

(** [j] is a child of node [i]. *)
Definition is_child (nodes : list node_dict) (i j : Z) : Prop :=
  ∃ nd, 0 ≤ i ∧ nodes !! Z.to_nat i = Some nd
        ∧ (left_child nd = j ∨ right_child nd = j).

(** No node is its own ancestor. *)
Definition acyclic (nodes : list node_dict) : Prop :=
  ∀ i, ¬ tc (is_child nodes) i i.

Global Instance valid_index_dec nodes i : Decision (valid_index nodes i).
Proof. unfold valid_index. apply _. Defined.
Global Instance child_ok_dec nodes c : Decision (child_ok nodes c).
Proof. unfold child_ok. apply _. Defined.
Global Instance children_in_range_dec nodes :
  Decision (children_in_range nodes).
Proof. unfold children_in_range. apply _. Defined.
Global Instance leaf_encoding_dec nodes : Decision (leaf_encoding nodes).
Proof. unfold leaf_encoding. apply _. Defined.
Global Instance features_in_range_dec nodes w :
  Decision (features_in_range nodes w).
Proof. unfold features_in_range. apply _. Defined.

(** ** The structural conversion in the words of the design document

    Index [-1] gives no node. Otherwise the subtree of [left_child] is the
    negative branch and the subtree of [right_child] the positive branch; if
    the positive branch exists the node is a decision node testing "feature
    strictly greater than threshold", with missing values sent to the
    negative child; else it is a leaf carrying the node's value. *)

Definition higher_than_condition (feature : Z) (threshold : Q)
    : NumericalHigherThanCondition :=
  {| cond_feature := {| name := py_str feature;
                        type := NUMERICAL;
                        col_idx := feature |};
     cond_threshold := threshold;
     missing_evaluation := false |}.

Inductive converts_to (nodes : list node_dict)
    : Z → option AbstractNode → Prop :=
| converts_no_node :
    converts_to nodes (-1) None
| converts_decision i nd pos neg :
    valid_index nodes i →
    nodes !! Z.to_nat i = Some nd →
    converts_to nodes (left_child nd) neg →
    converts_to nodes (right_child nd) (Some pos) →
    converts_to nodes i
      (Some (NonLeafNode (higher_than_condition (feature nd) (threshold nd))
                         (Some pos) neg))
| converts_leaf i nd neg :
    valid_index nodes i →
    nodes !! Z.to_nat i = Some nd →
    converts_to nodes (left_child nd) neg →
    converts_to nodes (right_child nd) None →
    converts_to nodes i (Some (LeafNode (value nd))).

(** Nodes are numbered so that children come after their parent, as the
    source library's tree builders number them. *)
Definition child_after (parent c : Z) : Prop := c = -1 ∨ parent < c.

Definition children_after_parent (nodes : list node_dict) : Prop :=
  Forall (λ p, child_after (Z.of_nat p.1) (left_child p.2)
               ∧ child_after (Z.of_nat p.1) (right_child p.2))
         (imap pair nodes).

Global Instance children_after_parent_dec nodes :
  Decision (children_after_parent nodes).
Proof. unfold children_after_parent, child_after. apply _. Defined.

(** ** Leaves and probability vectors *)

Fixpoint leaf_values (n : AbstractNode) : list AbstractValue :=
  match n with
  | LeafNode v => [v]
  | NonLeafNode _ pos neg =>
    match pos with Some p => leaf_values p | None => [] end
    ++ match neg with Some q => leaf_values q | None => [] end
  end.

Definition tree_leaf_values (t : Tree) : list AbstractValue :=
  match root t with
  | Some n => leaf_values n
  | None => []
  end.

(** A probability vector: non-negative entries that sum to one. *)
Definition is_distribution (v : AbstractValue) : Prop :=
  match v with
  | ProbabilityValue p => Forall (λ q, 0 <= q)%Q p ∧ (Qsum p == 1)%Q
  | RegressionValue _ => False
  end.

(** The statistics of a node hold, for the first output, a vector of
    per-class counts (so non-negative) with a positive sum. *)
Definition positive_counts (target_value : list (list Q)) : Prop :=
  ∃ counts, list_getitem target_value 0 = Some counts
            ∧ Forall (λ c, 0 <= c)%Q counts ∧ (0 < Qsum counts)%Q.

(** ** Example trees *)

Definition leaf_row : node_row :=
  {| row_left_child := -1; row_right_child := -1;
     row_feature := -2; row_threshold := (-2)%Q |}.

Definition split_row (l r f : Z) (t : Q) : node_row :=
  {| row_left_child := l; row_right_child := r;
     row_feature := f; row_threshold := t |}.

(** A root splitting feature 0 at 1/2 over two leaves. *)
Definition stump_state : tree_state :=
  {| nodes := [ split_row 1 2 0 (1 # 2); leaf_row; leaf_row ];
     values := [ [[15]]; [[10]]; [[20]] ]%Q |}.

Definition stump_nodes : list node_dict :=
  [ {| left_child := 1; right_child := 2; feature := 0;
       threshold := 1 # 2; value := RegressionValue 15 |};
    {| left_child := -1; right_child := -1; feature := -2;
       threshold := -2; value := RegressionValue 10 |};
    {| left_child := -1; right_child := -1; feature := -2;
       threshold := -2; value := RegressionValue 20 |} ]%Q.

(** The stump fitted as a regressor and as a two-class classifier. *)
Definition stump_regressor : estimator :=
  {| class_of := {| qualname := DecisionTreeRegressor; bases := ["object"] |};
     tree_ := Some stump_state;
     n_outputs_ := Some 1;
     n_classes_ := None;
     classes_ := None;
     n_features_in_ := Some 5 |}.

Definition stump_counts : tree_state :=
  {| nodes := [ split_row 1 2 0 (1 # 2); leaf_row; leaf_row ];
     values := [ [[4; 4]]; [[3; 1]]; [[1; 3]] ]%Q |}.

Definition stump_classifier : estimator :=
  {| class_of := {| qualname := DecisionTreeClassifier; bases := ["object"] |};
     tree_ := Some stump_counts;
     n_outputs_ := Some 1;
     n_classes_ := Some 2;
     classes_ := Some [IntLabel 0; IntLabel 1];
     n_features_in_ := Some 5 |}.

(** A regressor fitted to two targets. *)
Definition two_output_regressor : estimator :=
  {| class_of := {| qualname := DecisionTreeRegressor; bases := ["object"] |};
     tree_ := Some {| nodes := [ leaf_row ]; values := [ [[1]; [2]] ]%Q |};
     n_outputs_ := Some 2;
     n_classes_ := None;
     classes_ := None;
     n_features_in_ := Some 5 |}.

(** A regressor over five features whose splits use features 0 and 2. *)
Definition two_split_state : tree_state :=
  {| nodes := [ split_row 1 2 0 (1 # 2); leaf_row;
                split_row 3 4 2 (3 # 2); leaf_row; leaf_row ];
     values := [ [[5]]; [[1]]; [[7]]; [[6]]; [[8]] ]%Q |}.

Definition two_split_regressor : estimator :=
  {| class_of := {| qualname := ExtraTreeRegressor;
                    bases := [ DecisionTreeRegressor; "object" ] |};
     tree_ := Some two_split_state;
     n_outputs_ := Some 1;
     n_classes_ := None;
     classes_ := None;
     n_features_in_ := Some 5 |}.

(** Estimators that were never fit: none of the fitted attributes is set. *)
Definition unfitted (c : py_class) : estimator :=
  {| class_of := c;
     tree_ := None;
     n_outputs_ := None;
     n_classes_ := None;
     classes_ := None;
     n_features_in_ := None |}.

Definition unfitted_regressor : estimator :=
  unfitted {| qualname := DecisionTreeRegressor; bases := ["object"] |}.

Definition unfitted_classifier : estimator :=
  unfitted {| qualname := DecisionTreeClassifier; bases := ["object"] |}.

(** A class of the caller's own that derives from a registered one. *)
Definition PrunedTreeRegressor : py_class :=
  {| qualname := "mylib.PrunedTreeRegressor";
     bases := [ DecisionTreeRegressor; "object" ] |}.

Definition pruned_regressor : estimator :=
  {| class_of := PrunedTreeRegressor;
     tree_ := Some stump_state;
     n_outputs_ := Some 1;
     n_classes_ := None;
     classes_ := None;
     n_features_in_ := Some 5 |}.

(** An estimator that is no tree. *)
Definition LinearRegression : py_class :=
  {| qualname := "sklearn.linear_model.LinearRegression";
     bases := [ "object" ] |}.

(** ** Decision nodes of a target tree *)

(** The decision nodes of a tree, each with its condition and its two
    children. *)
Fixpoint decisions (n : AbstractNode)
    : list (NumericalHigherThanCondition
            * option AbstractNode * option AbstractNode) :=
  match n with
  | LeafNode _ => []
  | NonLeafNode c pos neg =>
    (c, pos, neg)
      :: match pos with Some p => decisions p | None => [] end
      ++ match neg with Some q => decisions q | None => [] end
  end.

(** ** Further example data *)

(** A node with a left child only, and a node with a right child only. *)
Definition left_only_nodes : list node_dict :=
  [ {| left_child := 1; right_child := -1; feature := 0;
       threshold := 1 # 2; value := RegressionValue 15 |};
    {| left_child := -1; right_child := -1; feature := -2;
       threshold := -2; value := RegressionValue 10 |} ]%Q.

Definition right_only_nodes : list node_dict :=
  [ {| left_child := -1; right_child := 1; feature := 0;
       threshold := 1 # 2; value := RegressionValue 15 |};
    {| left_child := -1; right_child := -1; feature := -2;
       threshold := -2; value := RegressionValue 20 |} ]%Q.

(** The stump fitted by a release of the source library that does not set
    [n_features_in_]. *)
Definition legacy_regressor : estimator :=
  {| class_of := {| qualname := DecisionTreeRegressor; bases := ["object"] |};
     tree_ := Some stump_state;
     n_outputs_ := Some 1;
     n_classes_ := None;
     classes_ := None;
     n_features_in_ := None |}.

(** A fitted estimator whose arrays are empty. *)
Definition empty_regressor : estimator :=
  {| class_of := {| qualname := DecisionTreeRegressor; bases := ["object"] |};
     tree_ := Some {| nodes := []; values := [] |};
     n_outputs_ := Some 2;
     n_classes_ := None;
     classes_ := None;
     n_features_in_ := Some 5 |}.

(** ** The source estimator's prediction

    Follows the spec's words. The estimator walks its own flat node array
    from the root: a node is a leaf iff its [left_child] is [-1]; at an inner
    node it goes to [left_child] iff the feature value is not greater than
    the threshold, and to [right_child] otherwise. At the leaf it predicts
    from the statistics stored for that node: for regression the single
    scalar, for classification the vector of per-class counts divided by its
    sum. Nothing here goes through the converter. *)

Inductive prediction : Type :=
| Scalar (y : Q)
| Probabilities (p : list Q).

Fixpoint source_apply (fuel : nat) (rows : list node_row) (i : Z)
    (x : list Q) : outcome Z :=
  match fuel with
  | O => OutOfFuel
  | S fuel' =>
    match list_getitem rows i with
    | None => Raise IndexError
    | Some row =>
      if decide (row_left_child row = -1) then Ok i
      else
        match row_get x (row_feature row) with
        | None => Raise IndexError
        | Some v =>
          if negb (higher_than v (row_threshold row))
          then source_apply fuel' rows (row_left_child row) x
          else source_apply fuel' rows (row_right_child row) x
        end
    end
  end.

Definition source_predict (fuel : nat) (sklearn_tree : estimator)
    (x : list Q) : outcome prediction :=
  data ← getattr "tree_" (tree_ sklearn_tree);
  leaf ← source_apply fuel (nodes data) 0 x;
  statistics ← getitem (values data) leaf;
  output ← getitem statistics 0;
  match n_classes_ sklearn_tree with
  | Some _ =>
    Ok (Probabilities ((λ c, c / foldr Qplus 0 output)%Q <$> output))
  | None =>
    mean ← getitem output 0;
    Ok (Scalar mean)
  end.

(** Modelled from the spec: what the target runtime outputs at a leaf, the
    regression scalar or the probability vector the leaf holds. *)
Definition leaf_prediction (v : AbstractValue) : prediction :=
  match v with
  | RegressionValue y => Scalar y
  | ProbabilityValue p => Probabilities p
  end.

(** Child indices that are [-1] or count from the front. *)
Definition children_from_front (nodes : list node_dict) : Prop :=
  Forall (λ nd, -1 ≤ left_child nd ∧ -1 ≤ right_child nd) nodes.

Global Instance children_from_front_dec nodes :
  Decision (children_from_front nodes).
Proof. unfold children_from_front. apply _. Defined.

(** A root whose left child points beyond the array. *)
Definition dangling_child_nodes : list node_dict :=
  [ {| left_child := 5; right_child := -1; feature := 0;
       threshold := 0; value := RegressionValue 0 |} ]%Q.

Definition dangling_child_regressor : estimator :=
  {| class_of := {| qualname := DecisionTreeRegressor; bases := ["object"] |};
     tree_ := Some {| nodes := [ split_row 5 (-1) 0 0 ];
                      values := [ [[0]] ]%Q |};
     n_outputs_ := Some 1;
     n_classes_ := None;
     classes_ := None;
     n_features_in_ := Some 5 |}.

(** * Properties *)

(** ** Comparison *)

Lemma higher_than_spec (x t : Q) : higher_than x t = true ↔ (t < x)%Q.
Proof. unfold higher_than, Qlt. apply Z.ltb_lt. Qed.

Lemma not_higher_than_spec (x t : Q) :
  negb (higher_than x t) = true ↔ (x <= t)%Q.
Proof.
  unfold higher_than, Qle. rewrite negb_true_iff, Z.ltb_ge. done.
Qed.

(** ** Subscripting *)

Lemma list_getitem_nonneg {A} (l : list A) (i : Z) :
  0 ≤ i → list_getitem l i = l !! Z.to_nat i.
Proof. intros Hi. unfold list_getitem. by rewrite decide_True. Qed.

Lemma list_getitem_valid (nodes : list node_dict) (i : Z) :
  valid_index nodes i → ∃ nd, list_getitem nodes i = Some nd
                              ∧ nodes !! Z.to_nat i = Some nd.
Proof.
  intros [Hlo Hhi]. rewrite list_getitem_nonneg by done.
  destruct (lookup_lt_is_Some_2 nodes (Z.to_nat i)) as [nd Hnd]; [lia|].
  eauto.
Qed.

Lemma children_in_range_lookup nodes n nd :
  children_in_range nodes → nodes !! n = Some nd →
  child_ok nodes (left_child nd) ∧ child_ok nodes (right_child nd).
Proof.
  intros Hr Hnd. unfold children_in_range in Hr.
  rewrite Forall_lookup in Hr. by apply (Hr n).
Qed.

(** ** One step of the node conversion *)

Lemma convert_node_sentinel fuel nodes :
  _convert_sklearn_node_to_tfdf_node fuel (-1) nodes = Ok None.
Proof. by destruct fuel. Qed.

Lemma convert_node_step fuel i nodes :
  i ≠ -1 →
  _convert_sklearn_node_to_tfdf_node (S fuel) i nodes =
    match list_getitem nodes i with
    | None => Raise IndexError
    | Some node =>
      neg_child ← _convert_sklearn_node_to_tfdf_node
                    fuel (left_child node) nodes;
      pos_child ← _convert_sklearn_node_to_tfdf_node
                    fuel (right_child node) nodes;
      match pos_child with
      | Some _ =>
        Ok (Some (NonLeafNode
                    {| cond_feature := {| name := py_str (feature node);
                                          type := NUMERICAL;
                                          col_idx := feature node |};
                       cond_threshold := threshold node;
                       missing_evaluation := false |}
                    pos_child neg_child))
      | None => Ok (Some (LeafNode (value node)))
      end
    end.
Proof. intros Hi. simpl. by rewrite decide_False. Qed.

Lemma convert_node_no_fuel i nodes :
  i ≠ -1 → _convert_sklearn_node_to_tfdf_node 0 i nodes = OutOfFuel.
Proof. intros Hi. simpl. by rewrite decide_False. Qed.

Lemma bind_Ok_inv {A B} (m : outcome A) (k : A → outcome B) (b : B) :
  m ≫= k = Ok b → ∃ a, m = Ok a ∧ k a = Ok b.
Proof. destruct m; simpl; intros H; try discriminate. eauto. Qed.

(** A node is returned for every index but the sentinel. *)
Lemma convert_node_None_inv fuel i nodes :
  _convert_sklearn_node_to_tfdf_node fuel i nodes = Ok None → i = -1.
Proof.
  destruct (decide (i = -1)) as [|Hi]; [done|].
  destruct fuel; [by rewrite convert_node_no_fuel|].
  rewrite convert_node_step by done.
  destruct (list_getitem nodes i); [|done].
  intros H. apply bind_Ok_inv in H as (neg & Hneg & H).
  apply bind_Ok_inv in H as (pos & Hpos & H).
  by destruct pos.
Qed.

(** More fuel does not change a result. *)
Lemma convert_node_fuel_mono nodes fuel :
  ∀ fuel' i r, (fuel ≤ fuel')%nat →
    _convert_sklearn_node_to_tfdf_node fuel i nodes = Ok r →
    _convert_sklearn_node_to_tfdf_node fuel' i nodes = Ok r.
Proof.
  induction fuel as [|fuel IH]; intros fuel' i r Hle.
  - destruct (decide (i = -1)) as [->|Hi].
    + by rewrite !convert_node_sentinel.
    + by rewrite convert_node_no_fuel.
  - destruct (decide (i = -1)) as [->|Hi].
    { by rewrite !convert_node_sentinel. }
    destruct fuel' as [|fuel']; [lia|].
    rewrite !convert_node_step by done.
    destruct (list_getitem nodes i) as [nd|]; [|done].
    intros H. apply bind_Ok_inv in H as (neg & Hneg & H).
    apply bind_Ok_inv in H as (pos & Hpos & H).
    rewrite (IH fuel' _ neg ltac:(lia) Hneg).
    by rewrite (IH fuel' _ pos ltac:(lia) Hpos).
Qed.

(** ** Termination on trees *)

(** A duplicate-free list of valid indices is no longer than the array. *)
Lemma valid_indices_length (nodes : list node_dict) (seen : list Z) :
  NoDup seen → (∀ a, a ∈ seen → valid_index nodes a) →
  (length seen ≤ length nodes)%nat.
Proof.
  intros Hnd Hv.
  assert (seen ⊆+ seqZ 0 (Z.of_nat (length nodes))) as Hsub.
  { apply NoDup_submseteq; [done|]. intros a Ha%Hv.
    apply elem_of_seqZ. unfold valid_index in Ha. lia. }
  apply submseteq_length in Hsub. rewrite length_seqZ in Hsub. lia.
Qed.

Lemma convert_node_total_aux nodes :
  children_in_range nodes → acyclic nodes →
  ∀ fuel seen i,
    child_ok nodes i → NoDup seen →
    (∀ a, a ∈ seen → valid_index nodes a ∧ tc (is_child nodes) a i) →
    (length nodes < fuel + length seen)%nat →
    ∃ r, _convert_sklearn_node_to_tfdf_node fuel i nodes = Ok r.
Proof.
  intros Hrange Hacyc. induction fuel as [|fuel IH];
    intros seen i Hi Hnd Hseen Hlen.
  - destruct (decide (i = -1)) as [->|Hne].
    { rewrite convert_node_sentinel. eauto. }
    assert (length seen ≤ length nodes)%nat as Hle.
    { apply valid_indices_length; [done|]. intros a Ha. by apply Hseen. }
    simpl in Hlen. lia.
  - destruct (decide (i = -1)) as [->|Hne].
    { rewrite convert_node_sentinel. eauto. }
    destruct Hi as [|Hi]; [done|].
    rewrite convert_node_step by done.
    destruct (list_getitem_valid nodes i Hi) as (nd & -> & Hlook).
    destruct (children_in_range_lookup _ _ _ Hrange Hlook) as [Hl Hr].
    assert (i ∉ seen) as Hfresh.
    { intros Hin. destruct (Hseen i Hin) as [_ Hcyc]. by apply (Hacyc i). }
    assert (∀ c, left_child nd = c ∨ right_child nd = c →
                 ∀ a, a ∈ i :: seen →
                      valid_index nodes a ∧ tc (is_child nodes) a c) as Hanc.
    { intros c Hc a Ha.
      assert (is_child nodes i c) as Hic.
      { exists nd. unfold valid_index in Hi. split_and!; [lia|done|done]. }
      apply elem_of_cons in Ha as [->|Ha].
      - split; [done|]. by apply tc_once.
      - destruct (Hseen a Ha) as [Hva Hai]. split; [done|].
        eapply tc_r; eauto. }
    destruct (IH (i :: seen) (left_child nd)) as [neg ->]; simpl;
      [done|by constructor|by apply Hanc; left|lia|].
    destruct (IH (i :: seen) (right_child nd)) as [pos ->]; simpl;
      [done|by constructor|by apply Hanc; right|lia|].
    destruct pos; eauto.
Qed.

(** On a tree, a fuel exceeding the number of nodes is enough. *)
Lemma convert_node_total nodes i fuel :
  children_in_range nodes → acyclic nodes → child_ok nodes i →
  (length nodes < fuel)%nat →
  ∃ r, _convert_sklearn_node_to_tfdf_node fuel i nodes = Ok r.
Proof.
  intros Hrange Hacyc Hi Hlen.
  apply (convert_node_total_aux nodes Hrange Hacyc fuel [] i);
    [done|constructor|by intros a ?%elem_of_nil|simpl; lia].
Qed.

(** ** The conversion computes what the design document describes *)

Lemma convert_node_sound nodes :
  children_in_range nodes →
  ∀ fuel i r, child_ok nodes i →
    _convert_sklearn_node_to_tfdf_node fuel i nodes = Ok r →
    converts_to nodes i r.
Proof.
  intros Hrange. induction fuel as [|fuel IH]; intros i r Hi.
  - destruct (decide (i = -1)) as [->|Hne].
    + rewrite convert_node_sentinel. intros [= <-]. constructor.
    + by rewrite convert_node_no_fuel.
  - destruct (decide (i = -1)) as [->|Hne].
    { rewrite convert_node_sentinel. intros [= <-]. constructor. }
    destruct Hi as [|Hi]; [done|].
    rewrite convert_node_step by done.
    destruct (list_getitem_valid nodes i Hi) as (nd & -> & Hlook).
    destruct (children_in_range_lookup _ _ _ Hrange Hlook) as [Hl Hr].
    intros H. apply bind_Ok_inv in H as (neg & Hneg & H).
    apply bind_Ok_inv in H as (pos & Hpos & H).
    apply IH in Hneg; [|done]. apply IH in Hpos; [|done].
    destruct pos as [p|]; injection H as <-.
    + by eapply converts_decision.
    + by eapply converts_leaf.
Qed.

Lemma converts_to_functional nodes i r :
  converts_to nodes i r → ∀ r', converts_to nodes i r' → r' = r.
Proof.
  induction 1 as [|i nd pos neg Hi Hlook _ IHneg _ IHpos
                  |i nd neg Hi Hlook _ IHneg _ IHpos]; intros r' Hr'.
  - inversion Hr'; subst; [done|unfold valid_index in *; lia..].
  - inversion Hr' as [|i' nd' pos' neg' _ Hlook' Hneg' Hpos'
                      |i' nd' neg' _ Hlook' Hneg' Hpos']; subst.
    + unfold valid_index in Hi. lia.
    + rewrite Hlook in Hlook'. injection Hlook' as <-.
      apply IHneg in Hneg' as ->. by apply IHpos in Hpos' as [= ->].
    + rewrite Hlook in Hlook'. injection Hlook' as <-.
      by apply IHpos in Hpos'.
  - inversion Hr' as [|i' nd' pos' neg' _ Hlook' Hneg' Hpos'
                      |i' nd' neg' _ Hlook' Hneg' Hpos']; subst.
    + unfold valid_index in Hi. lia.
    + rewrite Hlook in Hlook'. injection Hlook' as <-.
      by apply IHpos in Hpos'.
    + rewrite Hlook in Hlook'. by injection Hlook' as <-.
Qed.

(** C2. On a well-formed flat node array (child indices in range, no node
    its own ancestor), for the sentinel and for every valid index the
    recursive conversion returns exactly the result the design document
    describes: no node for [-1]; otherwise a decision node "feature strictly
    greater than threshold", missing values to the negative child, with the
    subtree of [right_child] as positive and that of [left_child] as negative
    child, when the positive subtree exists, and else a leaf carrying the
    node's precomputed value. *)
Theorem convert_node_meets_description (nodes : list node_dict) (i : Z) :
  children_in_range nodes → acyclic nodes → child_ok nodes i →
  ∃ r, converts_to nodes i r
       ∧ (∀ r', converts_to nodes i r' → r' = r)
       ∧ ∀ fuel, (length nodes < fuel)%nat →
           _convert_sklearn_node_to_tfdf_node fuel i nodes = Ok r.
Proof.
  intros Hrange Hacyc Hi.
  destruct (convert_node_total nodes i (S (length nodes)))
    as [r Hr]; [done..|lia|].
  exists r. assert (converts_to nodes i r) as Hspec.
  { by eapply convert_node_sound. }
  split_and!; [done|by apply converts_to_functional|].
  intros fuel Hfuel.
  eapply convert_node_fuel_mono; [|done]. lia.
Qed.

(** ** Acyclicity from the numbering of the nodes *)

Lemma children_after_parent_lookup nodes n nd :
  children_after_parent nodes → nodes !! n = Some nd →
  child_after (Z.of_nat n) (left_child nd)
  ∧ child_after (Z.of_nat n) (right_child nd).
Proof.
  intros Hall Hnd. unfold children_after_parent in Hall.
  rewrite Forall_forall in Hall. apply (Hall (n, nd)).
  apply elem_of_lookup_imap. eauto.
Qed.

Lemma acyclic_of_children_after_parent nodes :
  children_after_parent nodes → acyclic nodes.
Proof.
  intros Hall.
  assert (∀ i j, is_child nodes i j → 0 ≤ i ∧ child_after i j) as Hstep.
  { intros i j (nd & Hi & Hlook & Hc). split; [done|].
    destruct (children_after_parent_lookup _ _ _ Hall Hlook) as [Hl Hr].
    rewrite Z2Nat.id in Hl, Hr by done. by destruct Hc as [<-|<-]. }
  assert (∀ i j, tc (is_child nodes) i j → 0 ≤ i ∧ child_after i j) as Htc.
  { induction 1 as [i j Hij|i k j Hik _ IH]; [by apply Hstep|].
    apply Hstep in Hik. unfold child_after in *. lia. }
  intros i Hi%Htc. unfold child_after in Hi. lia.
Qed.

(** Closed decidable facts are settled by evaluating their decision
    procedure. *)
Ltac by_computation :=
  apply (bool_decide_unpack _); vm_compute; exact I.

Lemma stump_nodes_well_formed :
  children_in_range stump_nodes ∧ leaf_encoding stump_nodes
  ∧ acyclic stump_nodes.
Proof.
  split_and!; [by_computation..|].
  apply acyclic_of_children_after_parent. by_computation.
Qed.

Lemma convert_node_meets_description_witness :
  ∃ r, converts_to stump_nodes 0 r
       ∧ (∀ r', converts_to stump_nodes 0 r' → r' = r)
       ∧ ∀ fuel, (length stump_nodes < fuel)%nat →
           _convert_sklearn_node_to_tfdf_node fuel 0 stump_nodes = Ok r.
Proof.
  apply (convert_node_meets_description stump_nodes 0).
  - apply stump_nodes_well_formed.
  - apply stump_nodes_well_formed.
  - right. unfold valid_index. simpl. lia.
Defined.

(** C10. For a flat node array whose child indices describe a tree (each
    child index is [-1] or a valid index, no node is its own ancestor), the
    recursive conversion started at the root index terminates: some fuel
    bound, the number of nodes, is enough for it to finish, with one result
    whatever larger fuel it is given. Acyclicity is a hypothesis. *)
Theorem convert_node_terminates_on_trees (nodes : list node_dict) :
  children_in_range nodes → acyclic nodes →
  ∃ r, r ≠ OutOfFuel
       ∧ ∀ fuel, (length nodes < fuel)%nat →
           _convert_sklearn_node_to_tfdf_node fuel 0 nodes = r.
Proof.
  intros Hrange Hacyc. destruct nodes as [|nd nodes].
  - exists (Raise IndexError). split; [done|].
    intros [|fuel] Hfuel; [simpl in Hfuel; lia|done].
  - set (ns := nd :: nodes) in *.
    assert (child_ok ns 0) as H0.
    { right. unfold valid_index, ns. simpl. lia. }
    destruct (convert_node_total ns 0 (S (length ns))) as [r Hr];
      [done..|lia|].
    exists (Ok r). split; [done|]. intros fuel Hfuel.
    eapply convert_node_fuel_mono; [|done]. lia.
Qed.

Lemma convert_node_terminates_on_trees_witness :
  ∃ r, r ≠ OutOfFuel
       ∧ ∀ fuel, (length stump_nodes < fuel)%nat →
           _convert_sklearn_node_to_tfdf_node fuel 0 stump_nodes = r.
Proof.
  apply (convert_node_terminates_on_trees stump_nodes);
    apply stump_nodes_well_formed.
Defined.

(** Without acyclicity the recursion need not finish: on a node that is its
    own left child no amount of fuel is enough. *)
Lemma convert_node_diverges_on_a_cycle fuel :
  _convert_sklearn_node_to_tfdf_node fuel 0
    [ {| left_child := 0; right_child := -1; feature := 0;
         threshold := 0%Q; value := RegressionValue 0%Q |} ] = OutOfFuel.
Proof.
  induction fuel as [|fuel IH]; [done|].
  rewrite convert_node_step by done. simpl. by rewrite IH.
Qed.

(** ** Routing through the converted tree and through the flat array *)

Lemma flat_route_fuel_mono nodes x fuel :
  ∀ fuel' i leaf, (fuel ≤ fuel')%nat →
    flat_route fuel nodes i x = Ok leaf →
    flat_route fuel' nodes i x = Ok leaf.
Proof.
  induction fuel as [|fuel IH]; intros fuel' i leaf Hle; [done|].
  destruct fuel' as [|fuel']; [lia|]. simpl.
  destruct (list_getitem nodes i) as [nd|]; [|done].
  destruct (decide (left_child nd = -1)); [done|].
  destruct (row_get x (feature nd)) as [v|]; [|done].
  destruct (negb _); apply IH; lia.
Qed.

Lemma leaf_encoding_lookup nodes n nd :
  leaf_encoding nodes → nodes !! n = Some nd →
  left_child nd = -1 ↔ right_child nd = -1.
Proof.
  intros Hall Hnd. unfold leaf_encoding in Hall.
  rewrite Forall_lookup in Hall. by apply (Hall n).
Qed.

Lemma features_in_range_lookup nodes w n nd :
  features_in_range nodes w → nodes !! n = Some nd →
  right_child nd ≠ -1 → 0 ≤ feature nd < w.
Proof.
  intros Hall Hnd. unfold features_in_range in Hall.
  rewrite Forall_lookup in Hall. by apply (Hall n).
Qed.

Lemma row_get_in_range (x : list Q) k :
  0 ≤ k < Z.of_nat (length x) → is_Some (row_get x k).
Proof.
  intros Hk. unfold row_get. rewrite decide_True by lia.
  apply lookup_lt_is_Some_2. lia.
Qed.

(** The leaf the flat routing reaches from node [i] carries the value the
    converted subtree of [i] returns. *)
Lemma route_converted_node nodes x :
  children_in_range nodes → leaf_encoding nodes →
  features_in_range nodes (Z.of_nat (length x)) →
  ∀ fuel i t, valid_index nodes i →
    _convert_sklearn_node_to_tfdf_node fuel i nodes = Ok (Some t) →
    ∃ leaf, flat_route fuel nodes i x = Ok leaf
            ∧ route (λ spec, row_get x (col_idx spec)) t
              = Some (value leaf).
Proof.
  intros Hrange Hleaf Hfeat.
  induction fuel as [|fuel IH]; intros i t Hi.
  { rewrite convert_node_no_fuel; [done|]. unfold valid_index in Hi. lia. }
  assert (i ≠ -1) as Hne by (unfold valid_index in Hi; lia).
  rewrite convert_node_step by done. simpl flat_route.
  destruct (list_getitem_valid nodes i Hi) as (nd & -> & Hlook).
  destruct (children_in_range_lookup _ _ _ Hrange Hlook) as [Hl Hr].
  pose proof (leaf_encoding_lookup _ _ _ Hleaf Hlook) as Hboth.
  intros H. apply bind_Ok_inv in H as (neg & Hneg & H).
  apply bind_Ok_inv in H as (pos & Hpos & H).
  destruct pos as [p|]; injection H as <-.
  - assert (right_child nd ≠ -1) as Hrne.
    { intros Heq. rewrite Heq, convert_node_sentinel in Hpos. done. }
    assert (left_child nd ≠ -1) as Hlne by tauto.
    destruct neg as [q|]; [|by apply convert_node_None_inv in Hneg].
    destruct Hl as [|Hl]; [done|]. destruct Hr as [|Hr]; [done|].
    rewrite decide_False by done.
    destruct (row_get_in_range x (feature nd)) as [v Hv].
    { by eapply features_in_range_lookup. }
    simpl. unfold eval_condition. simpl. rewrite Hv.
    destruct (higher_than v (threshold nd)); simpl; by apply IH.
  - apply convert_node_None_inv in Hpos.
    rewrite decide_True by tauto. eauto.
Qed.

Lemma route_converted_root nodes x fuel :
  nodes ≠ [] → children_in_range nodes → leaf_encoding nodes →
  acyclic nodes → features_in_range nodes (Z.of_nat (length x)) →
  (length nodes < fuel)%nat →
  ∃ t leaf,
    _convert_sklearn_node_to_tfdf_node fuel 0 nodes = Ok (Some t)
    ∧ flat_route fuel nodes 0 x = Ok leaf
    ∧ route (λ spec, row_get x (col_idx spec)) t = Some (value leaf).
Proof.
  intros Hne Hrange Hleaf Hacyc Hfeat Hfuel.
  assert (valid_index nodes 0) as H0.
  { unfold valid_index. destruct nodes; [done|]. simpl. lia. }
  destruct (convert_node_total nodes 0 fuel) as [[t|] Ht];
    [done|done|by right|done| |by apply convert_node_None_inv in Ht].
  destruct (route_converted_node nodes x Hrange Hleaf Hfeat _ _ _ H0 Ht)
    as (leaf & Hflat & Hroute).
  eauto.
Qed.

(** The branch directions on the stump: 2/5 goes to the negative leaf, 3/5
    to the positive one. *)
Example stump_branch_direction :
  (t ← _convert_sklearn_node_to_tfdf_node 4 0 stump_nodes;
   Ok (t ≫= route (λ spec, row_get [2 # 5]%Q (col_idx spec)),
       t ≫= route (λ spec, row_get [3 # 5]%Q (col_idx spec))))
  = Ok (Some (RegressionValue 10), Some (RegressionValue 20)).
Proof. reflexivity. Qed.

(** ** Task-type resolution *)

Lemma task_type_cases (sklearn_tree : estimator) :
  _get_sklearn_tree_task_type sklearn_tree =
    match n_outputs_ sklearn_tree, n_classes_ sklearn_tree with
    | None, _ => Raise (AttributeError "n_outputs_")
    | Some k, Some _ =>
      if decide (k = 1) then Ok SINGLE_LABEL_CLASSIFICATION else Ok UNKNOWN
    | Some k, None =>
      if decide (k = 1) then Ok SCALAR_REGRESSION else Ok UNKNOWN
    end.
Proof.
  unfold _get_sklearn_tree_task_type, has_one_output, has_n_classes.
  destruct (n_outputs_ sklearn_tree) as [k|],
           (n_classes_ sklearn_tree) as [c|]; simpl; try done;
    destruct (decide (k = 1)) as [->|Hk]; try done;
    by rewrite bool_decide_eq_false_2.
Qed.

(** C3. Task-type resolution returns single-label classification iff the
    estimator declares exactly one output and has a number-of-classes
    attribute, scalar regression iff it declares exactly one output and has
    no such attribute, and unknown iff it declares another number of
    outputs. *)
Theorem task_type_resolution (sklearn_tree : estimator) :
  (_get_sklearn_tree_task_type sklearn_tree = Ok SINGLE_LABEL_CLASSIFICATION
   ↔ n_outputs_ sklearn_tree = Some 1 ∧ is_Some (n_classes_ sklearn_tree))
  ∧ (_get_sklearn_tree_task_type sklearn_tree = Ok SCALAR_REGRESSION
     ↔ n_outputs_ sklearn_tree = Some 1 ∧ n_classes_ sklearn_tree = None)
  ∧ (_get_sklearn_tree_task_type sklearn_tree = Ok UNKNOWN
     ↔ ∃ k, n_outputs_ sklearn_tree = Some k ∧ k ≠ 1).
Proof.
  rewrite task_type_cases. unfold is_Some.
  destruct (n_outputs_ sklearn_tree) as [k|],
           (n_classes_ sklearn_tree) as [c|];
    try destruct (decide (k = 1)) as [->|Hk];
    split_and!; split; naive_solver.
Qed.

(** ** Normalisation of class counts *)

Lemma Qsum_nonneg (l : list Q) :
  Forall (λ c, 0 <= c)%Q l → (0 <= Qsum l)%Q.
Proof.
  induction 1 as [|c l Hc _ IH]; simpl; [apply Qle_refl|].
  replace 0%Q with (0 + 0)%Q by done. by apply Qplus_le_compat.
Qed.

Lemma Qsum_scaled (s : Q) (l : list Q) :
  (Qsum ((λ c, c / s) <$> l) == Qsum l / s)%Q.
Proof.
  induction l as [|c l IH]; simpl.
  - unfold Qdiv. by rewrite Qmult_0_l.
  - rewrite IH. unfold Qdiv. by rewrite Qmult_plus_distr_l.
Qed.

Lemma normalise_is_distribution (counts : list Q) :
  Forall (λ c, 0 <= c)%Q counts → (0 < Qsum counts)%Q →
  is_distribution (ProbabilityValue (normalise counts)).
Proof.
  intros Hnonneg Hpos. split.
  - unfold normalise. apply Forall_fmap.
    eapply Forall_impl; [exact Hnonneg|]. intros c Hc. simpl.
    apply Qle_shift_div_l; [done|]. by rewrite Qmult_0_l.
  - unfold normalise. rewrite Qsum_scaled.
    apply Qmult_inv_r. intros Heq. rewrite Heq in Hpos.
    by apply Qlt_irrefl in Hpos.
Qed.

Lemma collect_nodes_distributions rows :
  Forall positive_counts rows.*2 →
  ∀ nodes, collect_nodes SINGLE_LABEL_CLASSIFICATION rows = Ok nodes →
    Forall (λ nd, is_distribution (value nd)) nodes.
Proof.
  induction rows as [|[props tv] rows IH]; simpl; intros Hall nodes.
  { intros [= <-]. constructor. }
  apply Forall_cons in Hall as [(counts & Hcounts & Hnonneg & Hpos) Hall].
  unfold getitem. rewrite Hcounts. simpl.
  intros H. apply bind_Ok_inv in H as (rest & Hrest & [= <-]).
  constructor; [|by apply IH].
  by apply normalise_is_distribution.
Qed.

(** Every leaf of a converted subtree carries the value of a node. *)
Lemma leaf_values_from_nodes nodes fuel :
  ∀ i t, _convert_sklearn_node_to_tfdf_node fuel i nodes = Ok (Some t) →
    Forall (λ v, ∃ nd, nd ∈ nodes ∧ v = value nd) (leaf_values t).
Proof.
  induction fuel as [|fuel IH]; intros i t.
  { destruct (decide (i = -1)) as [->|Hne];
      [by rewrite convert_node_sentinel|by rewrite convert_node_no_fuel]. }
  destruct (decide (i = -1)) as [->|Hne];
    [by rewrite convert_node_sentinel|].
  rewrite convert_node_step by done.
  destruct (list_getitem nodes i) as [nd|] eqn:Hget; [|done].
  assert (nd ∈ nodes) as Hin.
  { unfold list_getitem in Hget.
    repeat case_decide; try done; by eapply list_elem_of_lookup_2. }
  intros H. apply bind_Ok_inv in H as (neg & Hneg & H).
  apply bind_Ok_inv in H as (pos & Hpos & H).
  destruct pos as [p|]; injection H as <-; simpl.
  - apply Forall_app. split; [by eapply IH|].
    destruct neg as [q|]; [by eapply IH|constructor].
  - repeat constructor. eauto.
Qed.

(** C4. In a classification tree whose nodes all have a vector of per-class
    counts with a positive sum, the value built for each node is its count
    vector divided by its sum, and every leaf of the converted tree carries a
    vector with non-negative entries that sums to 1, exactly, over the
    rationals. *)
Theorem classification_leaves_are_distributions
    (sklearn_tree : estimator) (data : tree_state) (fuel : nat) (t : Tree) :
  tree_ sklearn_tree = Some data →
  _get_sklearn_tree_task_type sklearn_tree
    = Ok SINGLE_LABEL_CLASSIFICATION →
  Forall positive_counts (values data) →
  _convert_sklearn_tree_to_tfdf_pytree fuel sklearn_tree = Ok t →
  Forall (λ target_value, ∃ counts,
            list_getitem target_value 0 = Some counts
            ∧ node_value SINGLE_LABEL_CLASSIFICATION target_value
              = Ok (ProbabilityValue ((λ c, c / Qsum counts)%Q <$> counts)))
         (values data)
  ∧ Forall is_distribution (tree_leaf_values t).
Proof.
  intros Hdata Htask Hcounts Hconv. split.
  - eapply Forall_impl; [exact Hcounts|].
    intros tv (counts & Hget & _). exists counts. split; [done|].
    simpl. unfold getitem. by rewrite Hget.
  - unfold _convert_sklearn_tree_to_tfdf_pytree in Hconv.
    rewrite Hdata, Htask in Hconv. simpl in Hconv.
    apply bind_Ok_inv in Hconv as (nodes & Hnodes & Hconv).
    apply bind_Ok_inv in Hconv as (r & Hr & [= <-]).
    apply collect_nodes_distributions in Hnodes.
    + unfold tree_leaf_values. simpl. destruct r as [n|]; [|constructor].
      apply leaf_values_from_nodes in Hr.
      eapply Forall_impl; [exact Hr|]. intros v (nd & Hnd & ->).
      rewrite Forall_forall in Hnodes. by apply Hnodes.
    + rewrite Forall_forall in Hcounts. apply Forall_forall.
      intros tv Htv. apply Hcounts.
      apply list_elem_of_fmap in Htv as ([props tv'] & -> & Hin).
      by apply elem_of_zip_r in Hin.
Qed.

Lemma classification_leaves_are_distributions_witness :
  ∃ t, _convert_sklearn_tree_to_tfdf_pytree 4 stump_classifier = Ok t
       ∧ Forall is_distribution (tree_leaf_values t).
Proof.
  eexists. split; [reflexivity|].
  apply (classification_leaves_are_distributions
           stump_classifier stump_counts 4).
  - reflexivity.
  - reflexivity.
  - repeat constructor;
      (eexists; split_and!; [reflexivity|repeat constructor; done|done]).
  - reflexivity.
Defined.

(** ** Rejection of unknown task types *)

(** C5. For a fitted estimator (it has tree state with at least one node)
    whose task type resolves to unknown, translation fails with the explicit
    unsupported-task error, and it fails in the loop that builds the node
    values, which runs before the structural conversion: the outcome is the
    same whatever fuel the structural conversion is given, none included. *)
Theorem unknown_task_rejected_before_translation
    (sklearn_tree : estimator) (data : tree_state) :
  tree_ sklearn_tree = Some data →
  _get_sklearn_tree_task_type sklearn_tree = Ok UNKNOWN →
  nodes data ≠ [] → values data ≠ [] →
  collect_nodes UNKNOWN (zip (nodes data) (values data))
    = Raise (ValueError unsupported_task_message)
  ∧ ∀ fuel, _convert_sklearn_tree_to_tfdf_pytree fuel sklearn_tree
            = Raise (ValueError unsupported_task_message).
Proof.
  intros Hdata Htask Hnodes Hvalues.
  assert (collect_nodes UNKNOWN (zip (nodes data) (values data))
          = Raise (ValueError unsupported_task_message)) as Hloop.
  { destruct (nodes data) as [|row rows]; [done|].
    by destruct (values data) as [|tv tvs]. }
  split; [done|]. intros fuel.
  unfold _convert_sklearn_tree_to_tfdf_pytree.
  rewrite Hdata, Htask. simpl. by rewrite Hloop.
Qed.

Lemma unknown_task_rejected_before_translation_witness :
  collect_nodes UNKNOWN [(leaf_row, [[1]; [2]]%Q)]
    = Raise (ValueError unsupported_task_message)
  ∧ ∀ fuel, _convert_sklearn_tree_to_tfdf_pytree fuel two_output_regressor
            = Raise (ValueError unsupported_task_message).
Proof.
  apply (unknown_task_rejected_before_translation two_output_regressor
           {| nodes := [ leaf_row ]; values := [ [[1]; [2]] ]%Q |});
    [reflexivity|reflexivity|discriminate|discriminate].
Defined.

(** ** [str] and [int] on integers *)

Lemma py_int_str (z : Z) : py_int (py_str z) = Some z.
Proof.
  unfold py_int, py_str. rewrite NilZero.isi.
  - simpl. f_equal. apply DecimalZ.of_to.
  - destruct z as [|p|p]; simpl; try discriminate.
    intros [= H]. by apply DecimalPos.Unsigned.to_uint_nonnil in H.
  - destruct z as [|p|p]; simpl; try discriminate.
    intros [= H]. by apply DecimalPos.Unsigned.to_uint_nonnil in H.
Qed.

(** ** File-system effects of building a model *)

Lemma io_bind_pure_call {A B} (o : outcome A) (k : A → io B)
    (fs : filesystem) :
  (pure_call o ≫= k) fs =
    match o with
    | Ok a => k a fs
    | Raise e => (Raise e, fs)
    | OutOfFuel => (OutOfFuel, fs)
    end.
Proof. by destruct o. Qed.

Lemma build_and_load (path : string) (objective : Objective) (t : Tree)
    (fs : filesystem) :
  let m := {| model_objective := objective; model_trees := [t] |} in
  (close (add_tree (new_CARTBuilder path objective) t)
     ≫= λ _, load_model path) fs
  = (Ok m, <[path := SavedModel m]> fs).
Proof.
  unfold mbind, io_bind, close, load_model. simpl.
  by rewrite lookup_insert_eq.
Qed.

Lemma build_regression_cases fuel sklearn_model path fs :
  build_regression fuel sklearn_model path fs =
    match _convert_sklearn_tree_to_tfdf_pytree fuel sklearn_model with
    | Ok t =>
      let m := {| model_objective := RegressionObjective "label";
                  model_trees := [t] |} in
      (Ok m, <[path := SavedModel m]> fs)
    | Raise e => (Raise e, fs)
    | OutOfFuel => (OutOfFuel, fs)
    end.
Proof.
  unfold build_regression. rewrite io_bind_pure_call.
  destruct (_convert_sklearn_tree_to_tfdf_pytree fuel sklearn_model);
    [|done..].
  apply build_and_load.
Qed.

Lemma build_classification_cases fuel sklearn_model path fs :
  build_classification fuel sklearn_model path fs =
    match classes_ sklearn_model with
    | None => (Raise (AttributeError "classes_"), fs)
    | Some classes =>
      match _convert_sklearn_tree_to_tfdf_pytree fuel sklearn_model with
      | Ok t =>
        let m := {| model_objective :=
                      ClassificationObjective "label" (label_str <$> classes);
                    model_trees := [t] |} in
        (Ok m, <[path := SavedModel m]> fs)
      | Raise e => (Raise e, fs)
      | OutOfFuel => (OutOfFuel, fs)
      end
    end.
Proof.
  unfold build_classification. rewrite io_bind_pure_call.
  destruct (classes_ sklearn_model) as [classes|]; simpl; [|done].
  rewrite io_bind_pure_call.
  destruct (_convert_sklearn_tree_to_tfdf_pytree fuel sklearn_model);
    [|done..].
  apply build_and_load.
Qed.

(** Building either fails and leaves the file system as it was, or returns
    the model of the translated tree and has it saved under [path]. *)
Lemma build_tfdf_model_cases fuel sklearn_model path fs :
  (∃ objective t,
     _convert_sklearn_tree_to_tfdf_pytree fuel sklearn_model = Ok t
     ∧ let m := {| model_objective := objective; model_trees := [t] |} in
       _build_tfdf_model fuel sklearn_model path fs
       = (Ok m, <[path := SavedModel m]> fs))
  ∨ (∃ r, (∀ m, r ≠ Ok m)
          ∧ _build_tfdf_model fuel sklearn_model path fs = (r, fs)).
Proof.
  unfold _build_tfdf_model.
  destruct (dispatch (mro (class_of sklearn_model))).
  - right. eexists. split; [|reflexivity]. done.
  - rewrite build_regression_cases.
    destruct (_convert_sklearn_tree_to_tfdf_pytree fuel sklearn_model)
      as [t|e|]; [left; eauto|right..]; eexists; split; try reflexivity; done.
  - rewrite build_classification_cases.
    destruct (classes_ sklearn_model) as [classes|];
      [|right; eexists; split; [|reflexivity]; done].
    destruct (_convert_sklearn_tree_to_tfdf_pytree fuel sklearn_model)
      as [t|e|]; [left; eauto|right..]; eexists; split; try reflexivity; done.
Qed.

(** The temporary directory is gone when the block is left. *)
Lemma with_TemporaryDirectory_build fuel sklearn_model fs :
  let r := (_build_tfdf_model fuel sklearn_model (mkdtemp fs)
              (<[mkdtemp fs := EmptyDirectory]> fs)).1 in
  (with_TemporaryDirectory (_build_tfdf_model fuel sklearn_model) fs).1 = r
  ∧ (r ≠ OutOfFuel →
     (with_TemporaryDirectory (_build_tfdf_model fuel sklearn_model) fs).2
     = fs).
Proof.
  unfold with_TemporaryDirectory.
  assert (fs !! mkdtemp fs = None) as Hfresh by apply fresh_string_fresh.
  destruct (build_tfdf_model_cases fuel sklearn_model (mkdtemp fs)
              (<[mkdtemp fs := EmptyDirectory]> fs))
    as [(objective & t & _ & ->)|(r & Hr & ->)]; simpl.
  - split; [done|]. intros _.
    by rewrite insert_insert_eq, delete_insert_id.
  - destruct r as [m|e|]; simpl.
    + by destruct (Hr m).
    + split; [done|]. intros _. by rewrite delete_insert_id.
    + done.
Qed.

(** ** [convert]: outcome and file system *)

Lemma io_bind_then_pure {A B} (m : io A) (f : A → outcome B)
    (fs : filesystem) :
  (m ≫= λ a, pure_call (f a)) fs = ((m fs).1 ≫= f, (m fs).2).
Proof. unfold mbind at 1, io_bind. by destruct (m fs) as [[a|e|] fs']. Qed.

Lemma convert_supplied_path fuel sklearn_model p fs :
  p ≠ "" →
  convert fuel sklearn_model (Some p) fs =
    ((_build_tfdf_model fuel sklearn_model p fs).1
       ≫= wrap_model sklearn_model,
     (_build_tfdf_model fuel sklearn_model p fs).2).
Proof.
  intros Hp. unfold convert. rewrite io_bind_then_pure. simpl.
  by rewrite bool_decide_eq_true_2.
Qed.

Lemma convert_no_path fuel sklearn_model fs :
  let r := (_build_tfdf_model fuel sklearn_model (mkdtemp fs)
              (<[mkdtemp fs := EmptyDirectory]> fs)).1 in
  (convert fuel sklearn_model None fs).1 = r ≫= wrap_model sklearn_model
  ∧ (r ≠ OutOfFuel → (convert fuel sklearn_model None fs).2 = fs).
Proof.
  unfold convert. rewrite io_bind_then_pure. simpl.
  destruct (with_TemporaryDirectory_build fuel sklearn_model fs)
    as [-> Hfs]. done.
Qed.

(** Whatever the output directory, the outcome of [convert] is that of
    building the model in some directory and wrapping the result. *)
Lemma convert_outcome fuel sklearn_model path fs :
  ∃ p fs0,
    (convert fuel sklearn_model path fs).1
    = (_build_tfdf_model fuel sklearn_model p fs0).1
        ≫= wrap_model sklearn_model.
Proof.
  destruct path as [p|]; [destruct (decide (p = "")) as [->|Hp]|].
  - unfold convert. rewrite io_bind_then_pure. simpl.
    destruct (with_TemporaryDirectory_build fuel sklearn_model fs)
      as [-> _]. eauto.
  - rewrite convert_supplied_path by done. eauto.
  - destruct (convert_no_path fuel sklearn_model fs) as [-> _]. eauto.
Qed.

(** ** Estimators that were never fit *)

Lemma build_unfitted_regression fuel sklearn_model path fs :
  dispatch (mro (class_of sklearn_model)) = regression_implementation →
  tree_ sklearn_model = None →
  _build_tfdf_model fuel sklearn_model path fs
  = (Raise (ValueError not_fitted_message), fs).
Proof.
  intros Hd Ht. unfold _build_tfdf_model. rewrite Hd.
  rewrite build_regression_cases.
  unfold _convert_sklearn_tree_to_tfdf_pytree. by rewrite Ht.
Qed.

Lemma build_unfitted_classification fuel sklearn_model path fs :
  dispatch (mro (class_of sklearn_model)) = classification_implementation →
  tree_ sklearn_model = None →
  _build_tfdf_model fuel sklearn_model path fs
  = (match classes_ sklearn_model with
     | Some _ => Raise (ValueError not_fitted_message)
     | None => Raise (AttributeError "classes_")
     end, fs).
Proof.
  intros Hd Ht. unfold _build_tfdf_model. rewrite Hd.
  rewrite build_classification_cases.
  unfold _convert_sklearn_tree_to_tfdf_pytree. rewrite Ht.
  by destruct (classes_ sklearn_model).
Qed.

(** An unfitted regression tree is rejected with the untrained-model
    error. *)
Lemma convert_unfitted_regressor fuel path fs :
  (convert fuel unfitted_regressor path fs).1
  = Raise (ValueError not_fitted_message).
Proof.
  destruct (convert_outcome fuel unfitted_regressor path fs)
    as (p & fs0 & ->).
  by rewrite build_unfitted_regression.
Qed.

(** C6, at the failing input. An unfitted classification tree does not reach
    the check for fitted tree state: reading its class labels, which comes
    first on the classification path, raises [AttributeError], and that is
    what [convert] raises, with any output directory. *)
Theorem convert_unfitted_classifier fuel path fs :
  (convert fuel unfitted_classifier path fs).1
  = Raise (AttributeError "classes_").
Proof.
  destruct (convert_outcome fuel unfitted_classifier path fs)
    as (p & fs0 & ->).
  by rewrite build_unfitted_classification.
Qed.

(** ** Dispatch *)

Lemma registry_lookup (c : string) :
  registry !! c =
    if decide (c ∈ regression_classes) then Some regression_implementation
    else if decide (c ∈ classification_classes)
         then Some classification_implementation
         else None.
Proof.
  unfold registry, regression_classes, classification_classes. simpl.
  repeat case_decide; set_unfold; simplify_map_eq; naive_solver.
Qed.

Lemma dispatch_unregistered (classes : list string) :
  Forall (λ c, c ∉ supported_classes) classes →
  dispatch classes = default_implementation.
Proof.
  induction 1 as [|c classes Hc _ IH]; simpl; [done|].
  rewrite registry_lookup. unfold supported_classes in Hc.
  rewrite elem_of_app in Hc.
  rewrite !decide_False by tauto. done.
Qed.

Lemma dispatch_nearest (pre : list string) (c : string)
    (post : list string) :
  Forall (λ c, c ∉ supported_classes) pre →
  dispatch (pre ++ c :: post) =
    match registry !! c with
    | Some impl => impl
    | None => dispatch post
    end.
Proof.
  induction 1 as [|c' pre Hc _ IH]; simpl; [done|].
  rewrite (registry_lookup c'). unfold supported_classes in Hc.
  rewrite elem_of_app in Hc.
  rewrite !decide_False by tauto. done.
Qed.

(** C7, as stated, fails: an estimator whose class is none of the four
    registered ones, but derives from one, is converted. *)
Lemma subclass_of_registered_class_is_converted :
  ¬ (∀ fuel sklearn_model path fs,
       qualname (class_of sklearn_model) ∉ supported_classes →
       ∃ msg, (convert fuel sklearn_model path fs).1
              = Raise (NotImplementedError msg)).
Proof.
  intros Hall.
  destruct (Hall 4%nat pruned_regressor (Some "out") ∅) as [msg Hmsg].
  - by_computation.
  - vm_compute in Hmsg. discriminate.
Qed.

(** C7, amended. Dispatch follows the method resolution order of the
    estimator's class: when none of its classes is one of the four
    registered ones, building and converting fail with the
    unsupported-model error that names the class, and the file system is not
    touched; otherwise the nearest registered class decides, the two
    regression-tree classes taking the regression path and the two
    classification-tree classes the classification path. *)
Theorem dispatch_follows_method_resolution_order
    (fuel : nat) (sklearn_model : estimator) (path : string) :
  match list_find (λ c, c ∈ supported_classes)
                  (mro (class_of sklearn_model)) with
  | None =>
    let e := NotImplementedError
               ("Can't build a TFDF model for <class '"
                +:+ qualname (class_of sklearn_model) +:+ "'>") in
    (∀ fs, _build_tfdf_model fuel sklearn_model path fs = (Raise e, fs))
    ∧ (∀ out fs, (convert fuel sklearn_model out fs).1 = Raise e)
  | Some (_, c) =>
    if decide (c ∈ regression_classes)
    then _build_tfdf_model fuel sklearn_model path
         = build_regression fuel sklearn_model path
    else c ∈ classification_classes
         ∧ _build_tfdf_model fuel sklearn_model path
           = build_classification fuel sklearn_model path
  end.
Proof.
  destruct (list_find _ _) as [[i c]|] eqn:Hfind.
  - apply list_find_Some in Hfind as (Hi & Hc & Hbefore).
    assert (dispatch (mro (class_of sklearn_model))
            = default (dispatch (drop (S i) (mro (class_of sklearn_model))))
                      (registry !! c)) as Hd.
    { rewrite <- (take_drop_middle _ _ _ Hi) at 1.
      rewrite dispatch_nearest; [by destruct (registry !! c)|].
      apply Forall_forall. intros c' Hc'.
      apply list_elem_of_lookup in Hc' as [j Hj].
      apply lookup_take_Some in Hj as [Hj Hlt]. by eapply Hbefore. }
    unfold _build_tfdf_model. rewrite Hd, registry_lookup.
    case_decide; [done|]. unfold supported_classes in Hc.
    apply elem_of_app in Hc as [|Hc]; [done|]. by rewrite decide_True.
  - apply list_find_None in Hfind.
    assert (∀ p fs, _build_tfdf_model fuel sklearn_model p fs
                    = (Raise (NotImplementedError
                                (unsupported_model_message
                                   (class_of sklearn_model))), fs)) as Hb.
    { intros p fs. unfold _build_tfdf_model.
      by rewrite dispatch_unregistered. }
    split; [done|]. intros out fs.
    destruct (convert_outcome fuel sklearn_model out fs) as (p & fs0 & ->).
    by rewrite Hb.
Qed.

(** The nearest registered class of the four registered classes is the
    class itself, and a class unrelated to them is rejected by name. *)
Example dispatch_examples :
  dispatch (mro (class_of stump_regressor)) = regression_implementation
  ∧ dispatch (mro (class_of stump_classifier))
    = classification_implementation
  ∧ dispatch (mro PrunedTreeRegressor) = regression_implementation
  ∧ (convert 4 (unfitted LinearRegression) None ∅).1
    = Raise (NotImplementedError
               "Can't build a TFDF model for <class 'sklearn.linear_model.LinearRegression'>").
Proof. split_and!; reflexivity. Qed.

(** ** The output directory *)

Lemma wrap_model_Ok_inv sklearn_model tfdf_model m :
  wrap_model sklearn_model tfdf_model = Ok m →
  n_features_in_ sklearn_model = Some (input_width m)
  ∧ inner_model m = tfdf_model
  ∧ feature_indices m = serving_signature tfdf_model
  ∧ ∃ ks, slice_columns (input_width m) (serving_signature tfdf_model)
          = Ok ks.
Proof.
  unfold wrap_model. intros H.
  apply bind_Ok_inv in H as (n & Hn & H).
  apply bind_Ok_inv in H as (ks & Hks & [= <-]). simpl.
  destruct (n_features_in_ sklearn_model); [|done].
  injection Hn as ->. eauto.
Qed.

(** C9. Without an output directory (and [convert] finishing, by return or
    by exception), the file system after [convert] is the file system before
    it: the temporary directory it created is gone and nothing else has
    changed. With a directory path [p], no other path is touched, [p] is
    never removed, and after a successful return [p] holds the saved model
    that the returned model wraps. *)
Theorem temporary_directory_is_scoped
    (fuel : nat) (sklearn_model : estimator) (fs : filesystem) :
  ((convert fuel sklearn_model None fs).1 ≠ OutOfFuel →
   (convert fuel sklearn_model None fs).2 = fs)
  ∧ ∀ p, p ≠ "" →
      (∀ q, q ≠ p →
         (convert fuel sklearn_model (Some p) fs).2 !! q = fs !! q)
      ∧ (is_Some (fs !! p) →
         is_Some ((convert fuel sklearn_model (Some p) fs).2 !! p))
      ∧ (∀ m, (convert fuel sklearn_model (Some p) fs).1 = Ok m →
           (convert fuel sklearn_model (Some p) fs).2 !! p
           = Some (SavedModel (inner_model m))).
Proof.
  split.
  - destruct (convert_no_path fuel sklearn_model fs) as [Hr Hfs].
    intros Hfin. apply Hfs. intros Hbuild.
    apply Hfin. by rewrite Hr, Hbuild.
  - intros p Hp. rewrite convert_supplied_path by done. simpl.
    destruct (build_tfdf_model_cases fuel sklearn_model p fs)
      as [(objective & t & _ & ->)|(r & Hr & ->)]; simpl.
    + split_and!.
      * intros q Hq. by rewrite lookup_insert_ne.
      * intros _. rewrite lookup_insert_eq. eauto.
      * intros m (_ & <- & _)%wrap_model_Ok_inv.
        by rewrite lookup_insert_eq.
    + split_and!; [done..|].
      intros m Hm. destruct r as [m'|e|]; [by destruct (Hr m')|done..].
Qed.

Lemma temporary_directory_is_scoped_witness :
  (convert 4 stump_regressor None ∅).2 = ∅
  ∧ ∃ m, (convert 4 stump_regressor (Some "out") ∅).1 = Ok m
         ∧ (convert 4 stump_regressor (Some "out") ∅).2 !! "out"
           = Some (SavedModel (inner_model m)).
Proof.
  destruct (temporary_directory_is_scoped 4 stump_regressor ∅)
    as [Htmp Hout].
  split.
  - apply Htmp. vm_compute. discriminate.
  - eexists. split; [vm_compute; reflexivity|].
    apply (Hout "out"); [discriminate|vm_compute; reflexivity].
Defined.

(** ** The wrapped model *)

(** Every split of a converted subtree names its column by the decimal
    rendering of the column index. *)
Lemma converted_feature_names nodes fuel :
  ∀ i t, _convert_sklearn_node_to_tfdf_node fuel i nodes = Ok (Some t) →
    Forall (λ spec, name spec = py_str (col_idx spec)) (split_features t).
Proof.
  induction fuel as [|fuel IH]; intros i t.
  { destruct (decide (i = -1)) as [->|Hne];
      [by rewrite convert_node_sentinel|by rewrite convert_node_no_fuel]. }
  destruct (decide (i = -1)) as [->|Hne];
    [by rewrite convert_node_sentinel|].
  rewrite convert_node_step by done.
  destruct (list_getitem nodes i) as [nd|]; [|done].
  intros H. apply bind_Ok_inv in H as (neg & Hneg & H).
  apply bind_Ok_inv in H as (pos & Hpos & H).
  destruct pos as [p|]; injection H as <-; simpl; [|constructor].
  constructor; [done|]. apply Forall_app. split; [by eapply IH|].
  destruct neg as [q|]; [by eapply IH|constructor].
Qed.






Lemma sliced_inputs_lookup (feature_indices : list string) (row : list Q)
    (i : string) :
  sliced_inputs feature_indices row !! i =
    if decide (i ∈ feature_indices)
    then k ← py_int i; list_getitem row k
    else None.
Proof.
  unfold sliced_inputs.
  set (f := λ i0 : string, k ← py_int i0; v ← list_getitem row k;
                           Some (i0, v)).
  assert (∀ j p, f j = Some p → p.1 = j
                 ∧ (k ← py_int j; list_getitem row k) = Some p.2) as Hsome.
  { intros j p. unfold f. destruct (py_int j) as [k|]; simpl; [|done].
    destruct (list_getitem row k); simpl; [|done]. by intros [= <-]. }
  assert (∀ j, f j = None → (k ← py_int j; list_getitem row k) = None)
    as Hnone.
  { intros j. unfold f. destruct (py_int j) as [k|]; simpl; [|done].
    by destruct (list_getitem row k). }
  clearbody f.
  induction feature_indices as [|j rest IH]; [done|].
  cbn [omap list_omap].
  destruct (f j) as [[j' v]|] eqn:Hfj.
  - apply Hsome in Hfj as [Hj Hv]. simpl in Hj, Hv. subst j'.
    rewrite list_to_map_cons.
    destruct (decide (j = i)) as [->|Hne].
    + rewrite lookup_insert_eq, decide_True by left. done.
    + rewrite lookup_insert_ne by done. rewrite IH.
      repeat case_decide; set_solver.
  - apply Hnone in Hfj. rewrite IH.
    destruct (decide (j = i)) as [->|Hne].
    + rewrite (decide_True (P := i ∈ i :: rest)) by left.
      rewrite Hfj. by case_decide.
    + repeat case_decide; set_solver.
Qed.



(** On the five-feature example the signature names columns 0 and 2, and
    rows that differ in columns 1, 3 and 4 only get the same prediction. *)
Example unused_columns_example :
  (m ← (convert 6 two_split_regressor None ∅).1;
   Ok (input_width m, feature_indices m,
       predict m [1; 0; 2; 0; 0]%Q, predict m [1; 9; 2; 8; 7]%Q,
       predict m [1; 0; 1; 0; 0]%Q, predict m [0; 0; 2; 0; 0]%Q))
  = Ok (5, ["0"; "2"],
        Some (RegressionValue 8), Some (RegressionValue 8),
        Some (RegressionValue 6), Some (RegressionValue 1)).
Proof. vm_compute. reflexivity. Qed.

(** ** From the estimator to the returned model *)

(** Induction over target trees, with the children as induction
    hypotheses. *)
Lemma AbstractNode_children_ind (P : AbstractNode → Prop) :
  (∀ v, P (LeafNode v)) →
  (∀ c pos neg,
     (∀ p, pos = Some p → P p) → (∀ q, neg = Some q → P q) →
     P (NonLeafNode c pos neg)) →
  ∀ n, P n.
Proof.
  intros Hleaf Hnode. fix IH 1. intros [v|c pos neg]; [apply Hleaf|].
  apply Hnode.
  - destruct pos as [p'|]; intros p Hp; [|discriminate].
    injection Hp as <-. apply IH.
  - destruct neg as [q'|]; intros q Hq; [|discriminate].
    injection Hq as <-. apply IH.
Qed.

(** Routing reads the example only at the features of the splits. *)
Lemma route_ext (g1 g2 : SimpleColumnSpec → option Q) (t : AbstractNode) :
  Forall (λ spec, g1 spec = g2 spec) (split_features t) →
  route g1 t = route g2 t.
Proof.
  induction t as [v|c pos neg IHpos IHneg] using AbstractNode_children_ind;
    [done|].
  simpl. intros Hall. apply Forall_cons in Hall as [Hc Hall].
  apply Forall_app in Hall as [Hpos Hneg].
  unfold eval_condition. rewrite Hc.
  destruct (match g2 (cond_feature c) with
            | Some x => higher_than x (cond_threshold c)
            | None => missing_evaluation c
            end).
  - destruct pos as [p|]; [|done]. by apply IHpos.
  - destruct neg as [q|]; [|done]. by apply IHneg.
Qed.

(** The splits of a converted subtree are those of nodes with a right
    child. *)
Lemma split_features_from_nodes nodes fuel :
  ∀ i t, _convert_sklearn_node_to_tfdf_node fuel i nodes = Ok (Some t) →
    Forall (λ spec, ∃ nd, nd ∈ nodes ∧ right_child nd ≠ -1
                          ∧ col_idx spec = feature nd
                          ∧ name spec = py_str (feature nd))
           (split_features t).
Proof.
  induction fuel as [|fuel IH]; intros i t.
  { destruct (decide (i = -1)) as [->|Hne];
      [by rewrite convert_node_sentinel|by rewrite convert_node_no_fuel]. }
  destruct (decide (i = -1)) as [->|Hne];
    [by rewrite convert_node_sentinel|].
  rewrite convert_node_step by done.
  destruct (list_getitem nodes i) as [nd|] eqn:Hget; [|done].
  assert (nd ∈ nodes) as Hin.
  { unfold list_getitem in Hget.
    repeat case_decide; try done; by eapply list_elem_of_lookup_2. }
  intros H. apply bind_Ok_inv in H as (neg & Hneg & H).
  apply bind_Ok_inv in H as (pos & Hpos & H).
  destruct pos as [p|]; injection H as <-; simpl; [|constructor].
  constructor.
  - exists nd. split_and!; [done| |done..].
    intros Heq. by rewrite Heq, convert_node_sentinel in Hpos.
  - apply Forall_app. split; [by eapply IH|].
    destruct neg as [q|]; [by eapply IH|constructor].
Qed.

Lemma slice_columns_Ok width feature_indices :
  Forall (λ i, ∃ k, py_int i = Some k ∧ - width ≤ k < width)
         feature_indices →
  ∃ ks, slice_columns width feature_indices = Ok ks.
Proof.
  induction 1 as [|i rest (k & Hk & Hrange) _ [ks IH]]; simpl; [eauto|].
  unfold slice_column. rewrite Hk, decide_True by done. simpl.
  rewrite IH. simpl. eauto.
Qed.

(** X24. The whole conversion. For a fitted estimator of a registered class whose
    task type is known and whose flat tree is well formed, [convert] returns
    a model, and on every row of the declared width that model predicts the
    value of the leaf that flat-array routing reaches. *)
Theorem convert_end_to_end
    (fuel : nat) (sklearn_model : estimator) (path : option string)
    (fs : filesystem) (data : tree_state) (task_type : TaskType)
    (node_dicts : list node_dict) (x : list Q) :
  dispatch (mro (class_of sklearn_model)) = regression_implementation
  ∨ (dispatch (mro (class_of sklearn_model)) = classification_implementation
     ∧ is_Some (classes_ sklearn_model)) →
  tree_ sklearn_model = Some data →
  _get_sklearn_tree_task_type sklearn_model = Ok task_type →
  collect_nodes task_type (zip (nodes data) (values data)) = Ok node_dicts →
  node_dicts ≠ [] → children_in_range node_dicts →
  leaf_encoding node_dicts → acyclic node_dicts →
  n_features_in_ sklearn_model = Some (Z.of_nat (length x)) →
  features_in_range node_dicts (Z.of_nat (length x)) →
  (length node_dicts < fuel)%nat →
  ∃ m leaf,
    (convert fuel sklearn_model path fs).1 = Ok m
    ∧ flat_route fuel node_dicts 0 x = Ok leaf
    ∧ predict m x = Some (value leaf).
Proof.
  intros Hclass Hdata Htask Hcollect Hne Hrange Hleaf Hacyc Hwidth Hfeat
    Hfuel.
  destruct (route_converted_root node_dicts x fuel)
    as (t & leaf & Ht & Hflat & Hroute); [done..|].
  assert (_convert_sklearn_tree_to_tfdf_pytree fuel sklearn_model
          = Ok {| root := Some t |}) as Hpytree.
  { unfold _convert_sklearn_tree_to_tfdf_pytree.
    rewrite Hdata, Htask. simpl. rewrite Hcollect. simpl. by rewrite Ht. }
  assert (∀ p fs0, ∃ objective,
            (_build_tfdf_model fuel sklearn_model p fs0).1
            = Ok {| model_objective := objective;
                    model_trees := [ {| root := Some t |} ] |}) as Hbuild.
  { intros p fs0. unfold _build_tfdf_model.
    destruct Hclass as [->|[-> [classes Hclasses]]].
    - rewrite build_regression_cases, Hpytree. eauto.
    - rewrite build_classification_cases, Hclasses, Hpytree. eauto. }
  destruct (convert_outcome fuel sklearn_model path fs) as (p & fs0 & ->).
  destruct (Hbuild p fs0) as [objective ->]. simpl.
  set (tm := {| model_objective := objective;
                model_trees := [ {| root := Some t |} ] |}).
  pose proof (split_features_from_nodes _ _ _ _ Ht) as Hsplits.
  assert (Forall (λ spec, name spec ∈ serving_signature tm
                          ∧ name spec = py_str (col_idx spec)
                          ∧ 0 ≤ col_idx spec < Z.of_nat (length x))
                 (split_features t)) as Hspecs.
  { apply Forall_forall. intros spec Hspec.
    rewrite Forall_forall in Hsplits.
    destruct (Hsplits spec Hspec) as (nd & Hnd & Hr & Hcol & Hname).
    split_and!.
    - unfold serving_signature. rewrite elem_of_remove_dups. simpl.
      rewrite app_nil_r. by apply list_elem_of_fmap_2.
    - by rewrite Hcol.
    - rewrite Hcol. unfold features_in_range in Hfeat.
      rewrite Forall_forall in Hfeat. by apply Hfeat.
    - rewrite Hcol. unfold features_in_range in Hfeat.
      rewrite Forall_forall in Hfeat. by apply Hfeat. }
  destruct (slice_columns_Ok (Z.of_nat (length x)) (serving_signature tm))
    as [ks Hks].
  { apply Forall_forall. intros i Hi.
    unfold serving_signature in Hi. rewrite elem_of_remove_dups in Hi.
    simpl in Hi. rewrite app_nil_r in Hi.
    apply list_elem_of_fmap in Hi as (spec & -> & Hspec).
    rewrite Forall_forall in Hspecs.
    destruct (Hspecs spec Hspec) as (_ & -> & Hcol).
    exists (col_idx spec). rewrite py_int_str. split; [done|lia]. }
  unfold wrap_model. rewrite Hwidth. simpl. rewrite Hks. simpl.
  eexists _, leaf. split_and!; [done..|].
  unfold predict. simpl. rewrite decide_True by done.
  unfold call_tfdf_model. simpl. rewrite <- Hroute.
  apply route_ext. eapply Forall_impl; [exact Hspecs|].
  intros spec (Hin & Hname & Hcol). simpl.
  rewrite sliced_inputs_lookup, decide_True by done.
  rewrite Hname, py_int_str. simpl.
  rewrite list_getitem_nonneg by lia.
  unfold row_get. by rewrite decide_True by lia.
Qed.

Lemma convert_end_to_end_witness :
  ∃ m leaf,
    (convert 6 two_split_regressor None ∅).1 = Ok m
    ∧ flat_route 6
        [ {| left_child := 1; right_child := 2; feature := 0;
             threshold := 1 # 2; value := RegressionValue 5 |};
          {| left_child := -1; right_child := -1; feature := -2;
             threshold := -2; value := RegressionValue 1 |};
          {| left_child := 3; right_child := 4; feature := 2;
             threshold := 3 # 2; value := RegressionValue 7 |};
          {| left_child := -1; right_child := -1; feature := -2;
             threshold := -2; value := RegressionValue 6 |};
          {| left_child := -1; right_child := -1; feature := -2;
             threshold := -2; value := RegressionValue 8 |} ]%Q
        0 [1; 9; 2; 8; 7]%Q = Ok leaf
    ∧ predict m [1; 9; 2; 8; 7]%Q = Some (value leaf).
Proof.
  apply (convert_end_to_end 6 two_split_regressor None ∅
           two_split_state SCALAR_REGRESSION).
  - by left.
  - reflexivity.
  - reflexivity.
  - reflexivity.
  - discriminate.
  - by_computation.
  - by_computation.
  - apply acyclic_of_children_after_parent. by_computation.
  - reflexivity.
  - by_computation.
  - simpl. lia.
Defined.

(** * Further properties of the code *)

(** ** Node indices *)

Lemma bind_Raise_inv {A B} (m : outcome A) (k : A → outcome B) (e : exn) :
  m ≫= k = Raise e → m = Raise e ∨ ∃ a, m = Ok a ∧ k a = Raise e.
Proof.
  destruct m as [a|e'|]; simpl; intros H; [right; eauto|left; by injection H as ->|done].
Qed.

Lemma list_getitem_elem_of {A} (l : list A) (i : Z) (a : A) :
  list_getitem l i = Some a → a ∈ l.
Proof.
  unfold list_getitem. intros H.
  repeat case_decide; try done; by eapply list_elem_of_lookup_2.
Qed.

(** X1. A node index other than [-1] that lies outside the array, above its
    length or below minus its length, raises [IndexError]; in particular
    every conversion of an empty array does. *)
Theorem node_index_out_of_range (nodes : list node_dict) (i : Z) (fuel : nat) :
  i ≠ -1 →
  i < - Z.of_nat (length nodes) ∨ Z.of_nat (length nodes) ≤ i →
  _convert_sklearn_node_to_tfdf_node (S fuel) i nodes = Raise IndexError.
Proof.
  intros Hne Hout. rewrite convert_node_step by done.
  assert (list_getitem nodes i = None) as ->; [|done].
  unfold list_getitem. repeat case_decide; try done; try lia.
  apply lookup_ge_None. lia.
Qed.

Lemma node_index_out_of_range_witness :
  _convert_sklearn_node_to_tfdf_node 1 3 stump_nodes = Raise IndexError
  ∧ _convert_sklearn_node_to_tfdf_node 1 (-4) stump_nodes = Raise IndexError.
Proof.
  split.
  - apply (node_index_out_of_range stump_nodes 3 0); [lia|simpl; lia].
  - apply (node_index_out_of_range stump_nodes (-4) 0); [lia|simpl; lia].
Defined.

(** X2. A negative node index other than [-1] is no sentinel: it counts from
    the end of the array, so converting index [i] with [-len <= i < -1] is
    converting index [len + i]. *)
Theorem negative_index_counts_from_the_end
    (nodes : list node_dict) (i : Z) (fuel : nat) :
  - Z.of_nat (length nodes) ≤ i < -1 →
  _convert_sklearn_node_to_tfdf_node fuel i nodes
  = _convert_sklearn_node_to_tfdf_node fuel
      (Z.of_nat (length nodes) + i) nodes.
Proof.
  intros Hi. destruct fuel as [|fuel].
  - rewrite !convert_node_no_fuel by lia. done.
  - rewrite !convert_node_step by lia.
    assert (list_getitem nodes i
            = list_getitem nodes (Z.of_nat (length nodes) + i)) as ->;
      [|done].
    unfold list_getitem. repeat case_decide; try lia; done.
Qed.

Lemma negative_index_counts_from_the_end_witness :
  _convert_sklearn_node_to_tfdf_node 2 (-2) stump_nodes
  = _convert_sklearn_node_to_tfdf_node 2 1 stump_nodes.
Proof.
  apply (negative_index_counts_from_the_end stump_nodes (-2) 2).
  simpl. lia.
Defined.

Lemma node_index_beyond (nodes : list node_dict) (i : Z) (fuel : nat) :
  0 ≤ i → Z.of_nat (length nodes) ≤ i →
  _convert_sklearn_node_to_tfdf_node (S fuel) i nodes = Raise IndexError.
Proof.
  intros Hi Hout. rewrite convert_node_step by lia.
  assert (list_getitem nodes i = None) as ->; [|done].
  rewrite list_getitem_nonneg by done. apply lookup_ge_None. lia.
Qed.

Lemma convert_node_fuel_mono_raise nodes fuel :
  ∀ fuel' i e, (fuel ≤ fuel')%nat →
    _convert_sklearn_node_to_tfdf_node fuel i nodes = Raise e →
    _convert_sklearn_node_to_tfdf_node fuel' i nodes = Raise e.
Proof.
  induction fuel as [|fuel IH]; intros fuel' i e Hle.
  - destruct (decide (i = -1)) as [->|Hi];
      [by rewrite !convert_node_sentinel|by rewrite convert_node_no_fuel].
  - destruct (decide (i = -1)) as [->|Hi];
      [by rewrite !convert_node_sentinel|].
    destruct fuel' as [|fuel']; [lia|].
    rewrite !convert_node_step by done.
    destruct (list_getitem nodes i) as [nd|]; [|done].
    intros H. apply bind_Raise_inv in H as [H|(neg & Hneg & H)].
    { by rewrite (IH fuel' _ e ltac:(lia) H). }
    rewrite (convert_node_fuel_mono nodes fuel fuel' _ neg ltac:(lia) Hneg).
    simpl. apply bind_Raise_inv in H as [H|(pos & Hpos & H)].
    { by rewrite (IH fuel' _ e ltac:(lia) H). }
    by destruct pos.
Qed.

(** Without cycles and without indices that count from the end the
    recursion comes to an end even when child indices point beyond the
    array. *)
Lemma convert_node_finishes_aux nodes :
  children_from_front nodes → acyclic nodes →
  ∀ fuel seen i,
    -1 ≤ i → NoDup seen →
    (∀ a, a ∈ seen → valid_index nodes a ∧ tc (is_child nodes) a i) →
    (length nodes < fuel + length seen)%nat →
    (∃ r, _convert_sklearn_node_to_tfdf_node fuel i nodes = Ok r)
    ∨ _convert_sklearn_node_to_tfdf_node fuel i nodes = Raise IndexError.
Proof.
  intros Hfront Hacyc. induction fuel as [|fuel IH];
    intros seen i Hi Hnd Hseen Hlen.
  - destruct (decide (i = -1)) as [->|Hne].
    { rewrite convert_node_sentinel. eauto. }
    assert (length seen ≤ length nodes)%nat as Hle.
    { apply valid_indices_length; [done|]. intros a Ha. by apply Hseen. }
    simpl in Hlen. lia.
  - destruct (decide (i = -1)) as [->|Hne].
    { rewrite convert_node_sentinel. eauto. }
    destruct (decide (i < Z.of_nat (length nodes))) as [Hin|Hout];
      [|right; apply node_index_beyond; lia].
    assert (valid_index nodes i) as Hv by (unfold valid_index; lia).
    rewrite convert_node_step by done.
    destruct (list_getitem_valid nodes i Hv) as (nd & -> & Hlook).
    assert (-1 ≤ left_child nd ∧ -1 ≤ right_child nd) as [Hl Hr].
    { unfold children_from_front in Hfront.
      rewrite Forall_lookup in Hfront. by apply (Hfront (Z.to_nat i)). }
    assert (i ∉ seen) as Hfresh.
    { intros Hi'. destruct (Hseen i Hi') as [_ Hcyc]. by apply (Hacyc i). }
    assert (∀ c, left_child nd = c ∨ right_child nd = c →
                 ∀ a, a ∈ i :: seen →
                      valid_index nodes a ∧ tc (is_child nodes) a c) as Hanc.
    { intros c Hc a Ha.
      assert (is_child nodes i c) as Hic.
      { exists nd. split_and!; [lia|done|done]. }
      apply elem_of_cons in Ha as [->|Ha].
      - split; [done|]. by apply tc_once.
      - destruct (Hseen a Ha) as [Hva Hai]. split; [done|].
        eapply tc_r; eauto. }
    destruct (IH (i :: seen) (left_child nd)) as [[neg ->]| ->]; simpl;
      [done|by constructor|by apply Hanc; left|lia| |by right].
    destruct (IH (i :: seen) (right_child nd)) as [[pos ->]| ->]; simpl;
      [done|by constructor|by apply Hanc; right|lia| |by right].
    left. destruct pos; eauto.
Qed.

(** X3. On a node list without cycles whose child indices are all at least
    [-1], so that none counts from the end, the conversion from any index
    that is at least [-1] comes to an end, the same for every fuel above the
    number of nodes, and it ends either with a node or by raising
    [IndexError] for an index beyond the list: it raises nothing else. *)
Theorem node_conversion_raises_only_IndexError
    (nodes : list node_dict) (i : Z) :
  children_from_front nodes → acyclic nodes → -1 ≤ i →
  ∃ r, (∀ fuel, (length nodes < fuel)%nat →
          _convert_sklearn_node_to_tfdf_node fuel i nodes = r)
       ∧ ((∃ t, r = Ok t) ∨ r = Raise IndexError).
Proof.
  intros Hfront Hacyc Hi.
  destruct (convert_node_finishes_aux nodes Hfront Hacyc
              (S (length nodes)) [] i) as [[t Ht]|He];
    [done|constructor|by intros a ?%elem_of_nil|simpl; lia| |].
  - exists (Ok t). split; [|eauto]. intros fuel Hfuel.
    eapply convert_node_fuel_mono; [|done]. lia.
  - exists (Raise IndexError). split; [|eauto]. intros fuel Hfuel.
    eapply convert_node_fuel_mono_raise; [|done]. lia.
Qed.

Lemma node_conversion_raises_only_IndexError_witness :
  ∃ r, (∀ fuel, (length dangling_child_nodes < fuel)%nat →
          _convert_sklearn_node_to_tfdf_node fuel 0 dangling_child_nodes = r)
       ∧ ((∃ t, r = Ok t) ∨ r = Raise IndexError).
Proof.
  apply (node_conversion_raises_only_IndexError dangling_child_nodes 0).
  - by_computation.
  - apply acyclic_of_children_after_parent. by_computation.
  - lia.
Defined.

(** The node with a child beyond the list raises [IndexError]. *)
Example dangling_child_raises :
  _convert_sklearn_node_to_tfdf_node 2 0 dangling_child_nodes
  = Raise IndexError.
Proof. reflexivity. Qed.

(** X4. Rows appended to a flat array whose child indices are in range are
    never read: the conversion of the sentinel and of every valid index is
    the same with and without them. *)
Theorem appended_rows_are_ignored
    (nodes extra : list node_dict) (i : Z) (fuel : nat) :
  children_in_range nodes → child_ok nodes i →
  _convert_sklearn_node_to_tfdf_node fuel i (nodes ++ extra)
  = _convert_sklearn_node_to_tfdf_node fuel i nodes.
Proof.
  intros Hrange. revert i. induction fuel as [|fuel IH]; intros i Hi.
  - destruct (decide (i = -1)) as [->|Hne];
      [by rewrite !convert_node_sentinel|by rewrite !convert_node_no_fuel].
  - destruct (decide (i = -1)) as [->|Hne];
      [by rewrite !convert_node_sentinel|].
    destruct Hi as [|Hi]; [done|].
    rewrite !convert_node_step by done.
    destruct (list_getitem_valid nodes i Hi) as (nd & Hget & Hlook).
    rewrite Hget. unfold valid_index in Hi.
    rewrite list_getitem_nonneg by lia.
    rewrite lookup_app_l by lia. rewrite Hlook.
    destruct (children_in_range_lookup _ _ _ Hrange Hlook) as [Hl Hr].
    by rewrite !IH.
Qed.

Lemma appended_rows_are_ignored_witness :
  _convert_sklearn_node_to_tfdf_node 4 0 (stump_nodes ++ left_only_nodes)
  = _convert_sklearn_node_to_tfdf_node 4 0 stump_nodes.
Proof.
  apply (appended_rows_are_ignored stump_nodes left_only_nodes 0 4).
  - apply stump_nodes_well_formed.
  - right. unfold valid_index. simpl. lia.
Defined.

(** ** Shape of the converted tree *)

(** X5. Every decision node of a converted tree has a positive child, has a
    negative child exactly when the source row has a left child, and carries
    the condition "feature strictly greater than threshold", missing values
    evaluated as false, of a source row that has a right child: feature
    index and threshold are copied unchanged. *)
Theorem decision_nodes_come_from_split_rows
    (nodes : list node_dict) (fuel : nat) (i : Z) (t : AbstractNode) :
  _convert_sklearn_node_to_tfdf_node fuel i nodes = Ok (Some t) →
  Forall (λ d, is_Some d.1.2
               ∧ ∃ nd, nd ∈ nodes ∧ right_child nd ≠ -1
                       ∧ (is_Some d.2 ↔ left_child nd ≠ -1)
                       ∧ d.1.1 = higher_than_condition (feature nd)
                                                       (threshold nd))
         (decisions t).
Proof.
  revert i t. induction fuel as [|fuel IH]; intros i t.
  { destruct (decide (i = -1)) as [->|Hne];
      [by rewrite convert_node_sentinel|by rewrite convert_node_no_fuel]. }
  destruct (decide (i = -1)) as [->|Hne];
    [by rewrite convert_node_sentinel|].
  rewrite convert_node_step by done.
  destruct (list_getitem nodes i) as [nd|] eqn:Hget; [|done].
  apply list_getitem_elem_of in Hget.
  intros H. apply bind_Ok_inv in H as (neg & Hneg & H).
  apply bind_Ok_inv in H as (pos & Hpos & H).
  destruct pos as [p|]; injection H as <-; simpl; [|constructor].
  constructor.
  - simpl. split; [eauto|]. exists nd. split_and!; [done| | |done].
    + intros Heq. by rewrite Heq, convert_node_sentinel in Hpos.
    + split.
      * intros [q ->] Heq. by rewrite Heq, convert_node_sentinel in Hneg.
      * intros Hl. destruct neg; [eauto|].
        by apply convert_node_None_inv in Hneg.
  - apply Forall_app. split; [by eapply IH|].
    destruct neg as [q|]; [by eapply IH|constructor].
Qed.

Lemma decision_nodes_come_from_split_rows_witness :
  ∃ t, _convert_sklearn_node_to_tfdf_node 4 0 stump_nodes = Ok (Some t)
       ∧ Forall (λ d, is_Some d.1.2
                      ∧ ∃ nd, nd ∈ stump_nodes ∧ right_child nd ≠ -1
                              ∧ (is_Some d.2 ↔ left_child nd ≠ -1)
                              ∧ d.1.1 = higher_than_condition
                                          (feature nd) (threshold nd))
                (decisions t).
Proof.
  eexists. split; [reflexivity|].
  apply (decision_nodes_come_from_split_rows stump_nodes 4 0).
  reflexivity.
Defined.

(** X6. When every row of the array has both children or none, routing an
    example through a converted tree always ends in a leaf, whatever the
    example holds, features that are missing included. *)
Theorem routing_reaches_a_leaf
    (nodes : list node_dict) (fuel : nat) (i : Z) (t : AbstractNode)
    (get : SimpleColumnSpec → option Q) :
  leaf_encoding nodes →
  _convert_sklearn_node_to_tfdf_node fuel i nodes = Ok (Some t) →
  is_Some (route get t).
Proof.
  intros Hleaf. revert i t. induction fuel as [|fuel IH]; intros i t.
  { destruct (decide (i = -1)) as [->|Hne];
      [by rewrite convert_node_sentinel|by rewrite convert_node_no_fuel]. }
  destruct (decide (i = -1)) as [->|Hne];
    [by rewrite convert_node_sentinel|].
  rewrite convert_node_step by done.
  destruct (list_getitem nodes i) as [nd|] eqn:Hget; [|done].
  apply list_getitem_elem_of in Hget.
  unfold leaf_encoding in Hleaf. rewrite Forall_forall in Hleaf.
  specialize (Hleaf nd Hget).
  intros H. apply bind_Ok_inv in H as (neg & Hneg & H).
  apply bind_Ok_inv in H as (pos & Hpos & H).
  destruct pos as [p|]; injection H as <-; simpl; [|eauto].
  destruct neg as [q|].
  - destruct (eval_condition get _); by eapply IH.
  - apply convert_node_None_inv in Hneg. apply Hleaf in Hneg.
    by rewrite Hneg, convert_node_sentinel in Hpos.
Qed.

Lemma routing_reaches_a_leaf_witness :
  ∃ t, _convert_sklearn_node_to_tfdf_node 4 0 stump_nodes = Ok (Some t)
       ∧ is_Some (route (λ _, None) t).
Proof.
  eexists. split; [reflexivity|].
  apply (routing_reaches_a_leaf stump_nodes 4 0).
  - apply stump_nodes_well_formed.
  - reflexivity.
Defined.

(** X7. A row whose right child is [-1] becomes a leaf with the row's own
    value even when it has a left child: the left subtree is converted, and
    its result is dropped. *)
Theorem left_child_alone_is_dropped
    (nodes : list node_dict) (fuel : nat) (i : Z) (nd : node_dict)
    (neg : option AbstractNode) :
  i ≠ -1 → list_getitem nodes i = Some nd →
  right_child nd = -1 →
  _convert_sklearn_node_to_tfdf_node fuel (left_child nd) nodes = Ok neg →
  _convert_sklearn_node_to_tfdf_node (S fuel) i nodes
  = Ok (Some (LeafNode (value nd))).
Proof.
  intros Hne Hget Hr Hneg. rewrite convert_node_step by done.
  rewrite Hget, Hneg, Hr, convert_node_sentinel. done.
Qed.

Lemma left_child_alone_is_dropped_witness :
  _convert_sklearn_node_to_tfdf_node 3 0 left_only_nodes
  = Ok (Some (LeafNode (RegressionValue 15))).
Proof.
  apply (left_child_alone_is_dropped left_only_nodes 2 0
           {| left_child := 1; right_child := -1; feature := 0;
              threshold := 1 # 2; value := RegressionValue 15 |}
           (Some (LeafNode (RegressionValue 10))));
    [lia|reflexivity|reflexivity|reflexivity].
Defined.

(** X8. A row with a right child and no left child becomes a decision node
    without a negative child, and an example that the condition sends to the
    negative side gets no prediction from it. *)
Theorem right_child_alone_leaves_a_gap
    (nodes : list node_dict) (fuel : nat) (i : Z) (nd : node_dict)
    (p : AbstractNode) (get : SimpleColumnSpec → option Q) :
  i ≠ -1 → list_getitem nodes i = Some nd →
  left_child nd = -1 →
  _convert_sklearn_node_to_tfdf_node fuel (right_child nd) nodes
    = Ok (Some p) →
  eval_condition get (higher_than_condition (feature nd) (threshold nd))
    = false →
  ∃ t, _convert_sklearn_node_to_tfdf_node (S fuel) i nodes = Ok (Some t)
       ∧ t = NonLeafNode (higher_than_condition (feature nd) (threshold nd))
                         (Some p) None
       ∧ route get t = None.
Proof.
  intros Hne Hget Hl Hpos Hcond. rewrite convert_node_step by done.
  rewrite Hget, Hl, convert_node_sentinel, Hpos. simpl.
  eexists. split_and!; [done..|].
  simpl. unfold higher_than_condition in Hcond. by rewrite Hcond.
Qed.

Lemma right_child_alone_leaves_a_gap_witness :
  ∃ t, _convert_sklearn_node_to_tfdf_node 3 0 right_only_nodes = Ok (Some t)
       ∧ t = NonLeafNode (higher_than_condition 0 (1 # 2))
                         (Some (LeafNode (RegressionValue 20))) None
       ∧ route (λ spec, row_get [2 # 5]%Q (col_idx spec)) t = None.
Proof.
  apply (right_child_alone_leaves_a_gap right_only_nodes 2 0
           {| left_child := -1; right_child := 1; feature := 0;
              threshold := 1 # 2; value := RegressionValue 15 |}
           (LeafNode (RegressionValue 20))
           (λ spec, row_get [2 # 5]%Q (col_idx spec)));
    [lia|reflexivity|reflexivity|reflexivity|reflexivity].
Defined.

(** X9. The name given to a split feature is the decimal rendering of its
    column index, so parsing the name gives the column index back, for every
    split of a converted tree. *)
Theorem feature_names_parse_back
    (nodes : list node_dict) (fuel : nat) (i : Z) (t : AbstractNode) :
  _convert_sklearn_node_to_tfdf_node fuel i nodes = Ok (Some t) →
  Forall (λ spec, py_int (name spec) = Some (col_idx spec))
         (split_features t).
Proof.
  intros Ht. apply converted_feature_names in Ht.
  eapply Forall_impl; [exact Ht|]. intros spec ->. apply py_int_str.
Qed.

Lemma feature_names_parse_back_witness :
  ∃ t, _convert_sklearn_node_to_tfdf_node 4 0 stump_nodes = Ok (Some t)
       ∧ Forall (λ spec, py_int (name spec) = Some (col_idx spec))
                (split_features t).
Proof.
  eexists. split; [reflexivity|].
  apply (feature_names_parse_back stump_nodes 4 0). reflexivity.
Defined.

(** ** Task type and node values *)

(** X10. Task-type resolution raises exactly when the estimator has no
    [n_outputs_] attribute, and then it raises [AttributeError] for that
    attribute, whether or not [n_classes_] is there. *)
Theorem task_type_needs_n_outputs (sklearn_tree : estimator) :
  (_get_sklearn_tree_task_type sklearn_tree
   = Raise (AttributeError "n_outputs_")
   ↔ n_outputs_ sklearn_tree = None)
  ∧ (is_Some (n_outputs_ sklearn_tree)
     ↔ ∃ task_type, _get_sklearn_tree_task_type sklearn_tree = Ok task_type).
Proof.
  rewrite task_type_cases. unfold is_Some.
  destruct (n_outputs_ sklearn_tree) as [k|],
           (n_classes_ sklearn_tree) as [c|];
    try destruct (decide (k = 1)) as [->|Hk];
    split; split; naive_solver.
Qed.

Lemma collect_nodes_rows task_type rows :
  ∀ nds, collect_nodes task_type rows = Ok nds →
    Forall2 (λ nd row, left_child nd = row_left_child row.1
                       ∧ right_child nd = row_right_child row.1
                       ∧ feature nd = row_feature row.1
                       ∧ threshold nd = row_threshold row.1
                       ∧ node_value task_type row.2 = Ok (value nd))
            nds rows.
Proof.
  induction rows as [|[props tv] rows IH]; simpl; intros nds.
  { intros [= <-]. constructor. }
  intros H. apply bind_Ok_inv in H as (v & Hv & H).
  apply bind_Ok_inv in H as (rest & Hrest & [= <-]).
  constructor; [done|by apply IH].
Qed.

(** X11. The loop over the rows keeps their order and their structure: it
    returns one node per pair of [zip(nodes, values)], so as many as the
    shorter of the two arrays has, and each node has the child indices,
    feature and threshold of its row and the value built from its
    statistics. *)
Theorem collected_nodes_mirror_the_rows
    (task_type : TaskType) (data : tree_state) (nds : list node_dict) :
  collect_nodes task_type (zip (nodes data) (values data)) = Ok nds →
  length nds = (length (nodes data) `min` length (values data))%nat
  ∧ Forall2 (λ nd row, left_child nd = row_left_child row.1
                       ∧ right_child nd = row_right_child row.1
                       ∧ feature nd = row_feature row.1
                       ∧ threshold nd = row_threshold row.1
                       ∧ node_value task_type row.2 = Ok (value nd))
            nds (zip (nodes data) (values data)).
Proof.
  intros H. apply collect_nodes_rows in H. split; [|done].
  apply Forall2_length in H. rewrite H. apply length_zip_with.
Qed.

Lemma collected_nodes_mirror_the_rows_witness :
  ∃ nds, collect_nodes SCALAR_REGRESSION
           (zip (nodes stump_state) (values stump_state)) = Ok nds
         ∧ length nds = 3%nat.
Proof.
  eexists. split; [reflexivity|].
  apply (collected_nodes_mirror_the_rows SCALAR_REGRESSION stump_state).
  reflexivity.
Defined.

Lemma collect_nodes_regression rows :
  ∀ nds, collect_nodes SCALAR_REGRESSION rows = Ok nds →
    Forall (λ nd, ∃ tv output x,
              tv ∈ rows.*2 ∧ list_getitem tv 0 = Some output
              ∧ list_getitem output 0 = Some x
              ∧ value nd = RegressionValue x) nds.
Proof.
  induction rows as [|[props tv] rows IH]; simpl; intros nds.
  { intros [= <-]. constructor. }
  intros H. apply bind_Ok_inv in H as (v & Hv & H).
  apply bind_Ok_inv in H as (rest & Hrest & [= <-]).
  constructor.
  - simpl. unfold getitem in Hv.
    destruct (list_getitem tv 0) as [output|] eqn:Hout; [|done].
    simpl in Hv. destruct (list_getitem output 0) as [x|] eqn:Hx; [|done].
    injection Hv as <-. exists tv, output, x. split_and!; try done. by left.
  - eapply Forall_impl; [by apply IH|].
    intros nd (tv' & output & x & Hin & ?). exists tv', output, x.
    split; [by right|done].
Qed.

(** X12. Every leaf of a converted regression tree carries a regression
    value, the first entry of the first output of the statistics of one of
    the estimator's nodes. *)
Theorem regression_leaves_are_node_means
    (sklearn_tree : estimator) (data : tree_state) (fuel : nat) (t : Tree) :
  tree_ sklearn_tree = Some data →
  _get_sklearn_tree_task_type sklearn_tree = Ok SCALAR_REGRESSION →
  _convert_sklearn_tree_to_tfdf_pytree fuel sklearn_tree = Ok t →
  Forall (λ v, ∃ tv output x,
            tv ∈ values data ∧ list_getitem tv 0 = Some output
            ∧ list_getitem output 0 = Some x ∧ v = RegressionValue x)
         (tree_leaf_values t).
Proof.
  intros Hdata Htask Hconv.
  unfold _convert_sklearn_tree_to_tfdf_pytree in Hconv.
  rewrite Hdata, Htask in Hconv. simpl in Hconv.
  apply bind_Ok_inv in Hconv as (nds & Hnodes & Hconv).
  apply bind_Ok_inv in Hconv as (r & Hr & [= <-]).
  apply collect_nodes_regression in Hnodes.
  unfold tree_leaf_values. simpl. destruct r as [n|]; [|constructor].
  apply leaf_values_from_nodes in Hr.
  eapply Forall_impl; [exact Hr|]. intros v (nd & Hnd & ->).
  rewrite Forall_forall in Hnodes.
  destruct (Hnodes nd Hnd) as (tv & output & x & Hin & Hout & Hx & Hv).
  exists tv, output, x. split_and!; try done.
  apply list_elem_of_fmap in Hin as ([props tv'] & -> & Hin).
  by apply elem_of_zip_r in Hin.
Qed.

Lemma regression_leaves_are_node_means_witness :
  ∃ t, _convert_sklearn_tree_to_tfdf_pytree 4 stump_regressor = Ok t
       ∧ Forall (λ v, ∃ tv output x,
                   tv ∈ values stump_state
                   ∧ list_getitem tv 0 = Some output
                   ∧ list_getitem output 0 = Some x
                   ∧ v = RegressionValue x)
                (tree_leaf_values t).
Proof.
  eexists. split; [reflexivity|].
  apply (regression_leaves_are_node_means stump_regressor stump_state 4);
    reflexivity.
Defined.




(** X14. Normalisation leaves a vector that already sums to one as it is:
    statistics stored as class fractions go through unchanged. *)
Theorem normalise_keeps_fractions (counts : list Q) :
  (Qsum counts == 1)%Q → Forall2 Qeq (normalise counts) counts.
Proof.
  intros Hsum. unfold normalise. generalize dependent (Qsum counts).
  intros s Hs. induction counts as [|c counts IH]; constructor; [|done].
  rewrite Hs. by field.
Qed.

Lemma normalise_keeps_fractions_witness :
  Forall2 Qeq (normalise [3 # 4; 1 # 4]%Q) [3 # 4; 1 # 4]%Q.
Proof.
  apply (normalise_keeps_fractions [3 # 4; 1 # 4]%Q). reflexivity.
Defined.

(** X15. With an empty node array or an empty value array the loop over the
    rows does nothing, so not even an unknown task type is rejected: the
    lookup of the root raises [IndexError]. *)
Theorem empty_arrays_raise_IndexError
    (sklearn_tree : estimator) (data : tree_state) (task_type : TaskType)
    (fuel : nat) :
  tree_ sklearn_tree = Some data →
  _get_sklearn_tree_task_type sklearn_tree = Ok task_type →
  nodes data = [] ∨ values data = [] →
  _convert_sklearn_tree_to_tfdf_pytree (S fuel) sklearn_tree
  = Raise IndexError.
Proof.
  intros Hdata Htask Hempty.
  unfold _convert_sklearn_tree_to_tfdf_pytree. rewrite Hdata, Htask.
  assert (zip (nodes data) (values data) = []) as ->; [|done].
  destruct Hempty as [->| ->]; [done|]. by destruct (nodes data).
Qed.

Lemma empty_arrays_raise_IndexError_witness :
  _get_sklearn_tree_task_type empty_regressor = Ok UNKNOWN
  ∧ _convert_sklearn_tree_to_tfdf_pytree 1 empty_regressor
    = Raise IndexError.
Proof.
  split; [reflexivity|].
  apply (empty_arrays_raise_IndexError empty_regressor
           {| nodes := []; values := [] |} UNKNOWN 0);
    [reflexivity|reflexivity|by left].
Defined.

(** ** Exceptions of the conversion *)

Lemma node_value_raises task_type target_value e :
  node_value task_type target_value = Raise e →
  e = ValueError unsupported_task_message ∨ e = IndexError.
Proof.
  unfold node_value, getitem. destruct task_type; simpl.
  - intros [= <-]. by left.
  - destruct (list_getitem target_value 0) as [output|]; simpl;
      [|intros [= <-]; by right].
    destruct (list_getitem output 0); simpl; [done|intros [= <-]; by right].
  - destruct (list_getitem target_value 0); simpl;
      [done|intros [= <-]; by right].
Qed.

Lemma collect_nodes_raises task_type rows e :
  collect_nodes task_type rows = Raise e →
  e = ValueError unsupported_task_message ∨ e = IndexError.
Proof.
  induction rows as [|[props tv] rows IH]; simpl; [done|].
  intros H. apply bind_Raise_inv in H as [H|(v & _ & H)];
    [by eapply node_value_raises|].
  apply bind_Raise_inv in H as [H|(nds & _ & H)]; [by apply IH|done].
Qed.

Lemma node_value_finishes task_type target_value :
  node_value task_type target_value ≠ OutOfFuel.
Proof.
  unfold node_value, getitem. destruct task_type; simpl; [done| |].
  - destruct (list_getitem target_value 0) as [output|]; simpl; [|done].
    by destruct (list_getitem output 0).
  - by destruct (list_getitem target_value 0).
Qed.

Lemma collect_nodes_finishes task_type rows :
  collect_nodes task_type rows ≠ OutOfFuel.
Proof.
  induction rows as [|[props tv] rows IH]; simpl; [done|].
  pose proof (node_value_finishes task_type tv) as Hv.
  destruct (node_value task_type tv); simpl; [|done..].
  by destruct (collect_nodes task_type rows).
Qed.

(** X16. When the nodes the value loop collects have no cycle and no child
    index below [-1], the tree translation comes to an end, the same for
    every large enough fuel, and it ends either with a tree or by raising
    one of: the must-be-fit [ValueError], [AttributeError] for [n_outputs_],
    the unsupported-task [ValueError], [IndexError]. *)
Theorem tree_translation_exceptions (sklearn_tree : estimator) :
  (∀ data task_type nds,
     tree_ sklearn_tree = Some data →
     _get_sklearn_tree_task_type sklearn_tree = Ok task_type →
     collect_nodes task_type (zip (nodes data) (values data)) = Ok nds →
     children_from_front nds ∧ acyclic nds) →
  ∃ fuel0 r,
    (∀ fuel, (fuel0 ≤ fuel)%nat →
       _convert_sklearn_tree_to_tfdf_pytree fuel sklearn_tree = r)
    ∧ ((∃ t, r = Ok t)
       ∨ ∃ e, r = Raise e
              ∧ e ∈ [ ValueError not_fitted_message;
                      AttributeError "n_outputs_";
                      ValueError unsupported_task_message;
                      IndexError ]).
Proof.
  intros Hwf. unfold _convert_sklearn_tree_to_tfdf_pytree.
  destruct (tree_ sklearn_tree) as [data|] eqn:Hdata.
  2:{ exists 0%nat, (Raise (ValueError not_fitted_message)).
      split; [done|]. right. eexists. split; [done|set_solver]. }
  destruct (_get_sklearn_tree_task_type sklearn_tree)
    as [task_type|e|] eqn:Htask.
  - destruct (collect_nodes task_type (zip (nodes data) (values data)))
      as [nds|e|] eqn:Hcollect; simpl.
    + destruct (Hwf data task_type nds) as [Hfront Hacyc]; [done..|].
      destruct (convert_node_finishes_aux nds Hfront Hacyc
                  (S (length nds)) [] 0) as [[t Ht]|He];
        [lia|constructor|by intros a ?%elem_of_nil|simpl; lia| |].
      * exists (S (length nds)), (Ok {| root := t |}). split; [|eauto].
        intros fuel Hfuel. rewrite Hcollect. simpl.
        by rewrite (convert_node_fuel_mono nds _ fuel 0 t Hfuel Ht).
      * exists (S (length nds)), (Raise IndexError). split.
        -- intros fuel Hfuel. rewrite Hcollect. simpl.
           by rewrite (convert_node_fuel_mono_raise nds _ fuel 0 _ Hfuel He).
        -- right. eexists. split; [done|set_solver].
    + exists 0%nat, (Raise e). split.
      * intros fuel _. by rewrite Hcollect.
      * right. eexists. split; [done|].
        apply collect_nodes_raises in Hcollect as [->| ->]; set_solver.
    + by apply collect_nodes_finishes in Hcollect.
  - exists 0%nat, (Raise e). split; [done|]. right. eexists. split; [done|].
    rewrite task_type_cases in Htask.
    destruct (n_outputs_ sklearn_tree) as [k|],
             (n_classes_ sklearn_tree) as [c|];
      try destruct (decide (k = 1)); try done;
      injection Htask as <-; set_solver.
  - rewrite task_type_cases in Htask.
    by destruct (n_outputs_ sklearn_tree) as [k|],
                (n_classes_ sklearn_tree) as [c|];
      try destruct (decide (k = 1)).
Qed.

Lemma tree_translation_exceptions_witness :
  ∃ fuel0 r,
    (∀ fuel, (fuel0 ≤ fuel)%nat →
       _convert_sklearn_tree_to_tfdf_pytree fuel dangling_child_regressor
       = r)
    ∧ ((∃ t, r = Ok t)
       ∨ ∃ e, r = Raise e
              ∧ e ∈ [ ValueError not_fitted_message;
                      AttributeError "n_outputs_";
                      ValueError unsupported_task_message;
                      IndexError ]).
Proof.
  apply (tree_translation_exceptions dangling_child_regressor).
  intros data task_type nds Hdata Htask Hcollect.
  injection Hdata as <-. vm_compute in Htask. injection Htask as <-.
  vm_compute in Hcollect. injection Hcollect as <-.
  split; [by_computation|].
  apply acyclic_of_children_after_parent. by_computation.
Defined.

(** The unsupported-task error is one of them, and so is the [IndexError] of
    a child index beyond the collected nodes. *)
Example tree_translation_errors :
  _convert_sklearn_tree_to_tfdf_pytree 4 two_output_regressor
  = Raise (ValueError unsupported_task_message)
  ∧ _convert_sklearn_tree_to_tfdf_pytree 4 dangling_child_regressor
    = Raise IndexError.
Proof. split; reflexivity. Qed.

(** ** Failures and the file system *)

(** X17. The tree is translated before the builder is created: when the
    translation raises, on the regression path or on the classification path
    of an estimator with class labels, building the model raises the same
    exception and the file system is untouched. *)
Theorem translation_failure_precedes_the_builder
    (fuel : nat) (sklearn_model : estimator) (path : string)
    (fs : filesystem) (e : exn) :
  dispatch (mro (class_of sklearn_model)) = regression_implementation
  ∨ (dispatch (mro (class_of sklearn_model)) = classification_implementation
     ∧ is_Some (classes_ sklearn_model)) →
  _convert_sklearn_tree_to_tfdf_pytree fuel sklearn_model = Raise e →
  _build_tfdf_model fuel sklearn_model path fs = (Raise e, fs).
Proof.
  intros Hclass Ht. unfold _build_tfdf_model.
  destruct Hclass as [->|[-> [classes Hc]]].
  - by rewrite build_regression_cases, Ht.
  - by rewrite build_classification_cases, Hc, Ht.
Qed.

Lemma translation_failure_precedes_the_builder_witness :
  _build_tfdf_model 4 two_output_regressor "out" ∅
  = (Raise (ValueError unsupported_task_message), ∅).
Proof.
  apply (translation_failure_precedes_the_builder
           4 two_output_regressor "out" ∅);
    [by left|reflexivity].
Defined.

(** X18. An estimator without tree state that takes the regression path, or
    takes the classification path and has class labels, is rejected with the
    must-be-fit [ValueError], whatever else it lacks and whatever output
    directory is given, and the file system is left as it was. *)
Theorem unfitted_estimator_is_rejected
    (fuel : nat) (sklearn_model : estimator) (path : option string)
    (fs : filesystem) :
  dispatch (mro (class_of sklearn_model)) = regression_implementation
  ∨ (dispatch (mro (class_of sklearn_model)) = classification_implementation
     ∧ is_Some (classes_ sklearn_model)) →
  tree_ sklearn_model = None →
  convert fuel sklearn_model path fs
  = (Raise (ValueError not_fitted_message), fs).
Proof.
  intros Hclass Htree.
  assert (∀ p fs0, _build_tfdf_model fuel sklearn_model p fs0
                   = (Raise (ValueError not_fitted_message), fs0)) as Hb.
  { intros p fs0. destruct Hclass as [Hd|[Hd [classes Hc]]].
    - by apply build_unfitted_regression.
    - rewrite build_unfitted_classification by done. by rewrite Hc. }
  destruct path as [p|]; [destruct (decide (p = "")) as [->|Hp]|].
  - destruct (convert_no_path fuel sklearn_model fs) as [Hr Hfs].
    unfold convert in *. simpl in *.
    rewrite Hb in Hr, Hfs. simpl in Hr, Hfs.
    apply injective_projections; simpl; [done|by apply Hfs].
  - rewrite convert_supplied_path by done. by rewrite Hb.
  - destruct (convert_no_path fuel sklearn_model fs) as [Hr Hfs].
    rewrite Hb in Hr, Hfs. simpl in Hr, Hfs.
    apply injective_projections; simpl; [done|by apply Hfs].
Qed.

Lemma unfitted_estimator_is_rejected_witness :
  convert 4 unfitted_regressor (Some "out") ∅
  = (Raise (ValueError not_fitted_message), ∅).
Proof.
  apply (unfitted_estimator_is_rejected 4 unfitted_regressor (Some "out") ∅);
    [by left|reflexivity].
Defined.

(** X19. The feature count is read after the model has been built. For an
    estimator without [n_features_in_] whose model builds, [convert] raises
    [AttributeError], and by then a supplied directory holds the saved model;
    without a supplied directory nothing is left. *)
Theorem missing_feature_count_fails_after_build
    (fuel : nat) (sklearn_model : estimator) (p : string)
    (fs : filesystem) (tm : tfdf_model) :
  n_features_in_ sklearn_model = None →
  p ≠ "" →
  (_build_tfdf_model fuel sklearn_model p fs).1 = Ok tm →
  convert fuel sklearn_model (Some p) fs
  = (Raise (AttributeError "n_features_in_"), <[p := SavedModel tm]> fs)
  ∧ convert fuel sklearn_model None fs
    = (Raise (AttributeError "n_features_in_"), fs).
Proof.
  intros Hn Hp Hbuild.
  assert (∀ tm', wrap_model sklearn_model tm'
                 = Raise (AttributeError "n_features_in_")) as Hwrap.
  { intros tm'. unfold wrap_model. by rewrite Hn. }
  split.
  - rewrite convert_supplied_path by done. rewrite Hbuild. simpl.
    rewrite Hwrap. f_equal.
    destruct (build_tfdf_model_cases fuel sklearn_model p fs)
      as [(objective & t & _ & Hb)|(r & Hr & Hb)];
      rewrite Hb in Hbuild |- *; simpl in *.
    + by injection Hbuild as <-.
    + by destruct (Hr tm).
  - destruct (convert_no_path fuel sklearn_model fs) as [Hr Hfs].
    destruct (build_tfdf_model_cases fuel sklearn_model p fs)
      as [(objective & t & Ht & _)|(r & Hr' & Hb)];
      [|rewrite Hb in Hbuild; by destruct (Hr' tm)].
    destruct (build_tfdf_model_cases fuel sklearn_model (mkdtemp fs)
                (<[mkdtemp fs := EmptyDirectory]> fs))
      as [(objective' & t' & _ & Hb)|(r & Hr' & Hb)];
      rewrite Hb in Hr, Hfs; simpl in Hr, Hfs.
    + rewrite Hwrap in Hr.
      apply injective_projections; simpl; [done|by apply Hfs].
    + (* the build succeeds in every directory *)
      exfalso. unfold _build_tfdf_model in Hb.
      destruct (dispatch (mro (class_of sklearn_model))) eqn:Hd.
      * unfold _build_tfdf_model in Hbuild. by rewrite Hd in Hbuild.
      * rewrite build_regression_cases, Ht in Hb.
        injection Hb as <-. by eapply Hr'.
      * unfold _build_tfdf_model in Hbuild.
        rewrite Hd, build_classification_cases in Hbuild.
        rewrite build_classification_cases, Ht in Hb.
        destruct (classes_ sklearn_model); [|done].
        injection Hb as <-. by eapply Hr'.
Qed.

Lemma missing_feature_count_fails_after_build_witness :
  ∃ tm, convert 4 legacy_regressor (Some "out") ∅
        = (Raise (AttributeError "n_features_in_"),
           <["out" := SavedModel tm]> ∅)
        ∧ convert 4 legacy_regressor None ∅
          = (Raise (AttributeError "n_features_in_"), ∅).
Proof.
  eexists.
  apply (missing_feature_count_fails_after_build 4 legacy_regressor "out" ∅);
    [reflexivity|discriminate|reflexivity].
Defined.

(** X20. An empty string as output directory counts as no directory:
    [convert] does what it does without one, so it works in a temporary
    directory and, when it finishes, leaves the file system as it was. *)
Theorem empty_path_is_no_path
    (fuel : nat) (sklearn_model : estimator) (fs : filesystem) :
  convert fuel sklearn_model (Some "") fs = convert fuel sklearn_model None fs
  ∧ ((convert fuel sklearn_model (Some "") fs).1 ≠ OutOfFuel →
     (convert fuel sklearn_model (Some "") fs).2 = fs).
Proof.
  assert (convert fuel sklearn_model (Some "") fs
          = convert fuel sklearn_model None fs) as Heq by done.
  split; [done|]. rewrite Heq.
  destruct (convert_no_path fuel sklearn_model fs) as [Hr Hfs].
  intros Hfin. apply Hfs. intros Hbuild. apply Hfin. by rewrite Hr, Hbuild.
Qed.

Lemma empty_path_is_no_path_witness :
  (convert 4 stump_regressor (Some "") ∅).2 = ∅.
Proof.
  apply (empty_path_is_no_path 4 stump_regressor ∅).
  vm_compute. discriminate.
Defined.

(** ** Dispatch and the built model *)

(** X21. An estimator whose class is one of the four registered classes
    takes the path registered for that class, whatever classes it derives
    from: the regression path for the two regression-tree classes, the
    classification path for the two classification-tree classes. *)
Theorem registered_class_takes_its_own_path
    (fuel : nat) (sklearn_model : estimator) (path : string) :
  qualname (class_of sklearn_model) ∈ supported_classes →
  _build_tfdf_model fuel sklearn_model path
  = if decide (qualname (class_of sklearn_model) ∈ regression_classes)
    then build_regression fuel sklearn_model path
    else build_classification fuel sklearn_model path.
Proof.
  intros Hin. unfold _build_tfdf_model, mro. simpl.
  rewrite registry_lookup. unfold supported_classes in Hin.
  apply elem_of_app in Hin as [Hin|Hin].
  - by rewrite !decide_True.
  - case_decide; [done|]. by rewrite decide_True.
Qed.

Lemma registered_class_takes_its_own_path_witness :
  _build_tfdf_model 6 two_split_regressor "out"
  = build_regression 6 two_split_regressor "out".
Proof.
  apply (registered_class_takes_its_own_path 6 two_split_regressor "out").
  by_computation.
Defined.

(** X22. Whenever [convert] returns a model, the tree translation has
    succeeded and the model holds exactly the translated tree; its objective
    follows the path taken and not the task type: a regression objective
    with the placeholder label on the regression path, and on the
    classification path a classification objective whose classes are the
    estimator's class labels rendered as strings, in order. *)
Theorem returned_model_holds_the_translated_tree
    (fuel : nat) (sklearn_model : estimator) (path : option string)
    (fs fs' : filesystem) (m : keras_model) :
  convert fuel sklearn_model path fs = (Ok m, fs') →
  ∃ t, _convert_sklearn_tree_to_tfdf_pytree fuel sklearn_model = Ok t
       ∧ model_trees (inner_model m) = [t]
       ∧ match dispatch (mro (class_of sklearn_model)) with
         | regression_implementation =>
           model_objective (inner_model m) = RegressionObjective "label"
         | classification_implementation =>
           ∃ classes, classes_ sklearn_model = Some classes
                      ∧ model_objective (inner_model m)
                        = ClassificationObjective "label"
                            (label_str <$> classes)
         | default_implementation => False
         end.
Proof.
  intros Hconv.
  destruct (convert_outcome fuel sklearn_model path fs) as (p & fs0 & Hout).
  rewrite Hconv in Hout. simpl in Hout. symmetry in Hout.
  apply bind_Ok_inv in Hout as (tm & Hbuild & Hwrap).
  apply wrap_model_Ok_inv in Hwrap as (_ & <- & _).
  unfold _build_tfdf_model in Hbuild.
  destruct (dispatch (mro (class_of sklearn_model))).
  - done.
  - rewrite build_regression_cases in Hbuild.
    destruct (_convert_sklearn_tree_to_tfdf_pytree fuel sklearn_model)
      as [t| |]; [|done..].
    injection Hbuild as Hm. rewrite <- Hm. eauto.
  - rewrite build_classification_cases in Hbuild.
    destruct (classes_ sklearn_model) as [classes|]; [|done].
    destruct (_convert_sklearn_tree_to_tfdf_pytree fuel sklearn_model)
      as [t| |]; [|done..].
    injection Hbuild as Hm. rewrite <- Hm. simpl.
    exists t. split_and!; [done..|]. by exists classes.
Qed.

Lemma returned_model_holds_the_translated_tree_witness :
  ∃ m t, convert 4 stump_classifier None ∅ = (Ok m, ∅)
         ∧ _convert_sklearn_tree_to_tfdf_pytree 4 stump_classifier = Ok t
         ∧ model_trees (inner_model m) = [t]
         ∧ model_objective (inner_model m)
           = ClassificationObjective "label" ["0"; "1"].
Proof.
  eexists.
  edestruct (returned_model_holds_the_translated_tree
               4 stump_classifier None ∅ ∅)
    as (t & Ht & Htrees & Hobj); [reflexivity|].
  exists t. split_and!; [reflexivity|exact Ht|exact Htrees|].
  destruct Hobj as (classes & [= <-] & Hobj). exact Hobj.
Defined.

(** X23. When every row of the array has both children or none, a converted
    tree is a full binary tree: it has one leaf more than it has decision
    nodes. *)
Theorem converted_tree_is_full
    (nodes : list node_dict) (fuel : nat) (i : Z) (t : AbstractNode) :
  leaf_encoding nodes →
  _convert_sklearn_node_to_tfdf_node fuel i nodes = Ok (Some t) →
  length (leaf_values t) = S (length (decisions t)).
Proof.
  intros Hleaf. revert i t. induction fuel as [|fuel IH]; intros i t.
  { destruct (decide (i = -1)) as [->|Hne];
      [by rewrite convert_node_sentinel|by rewrite convert_node_no_fuel]. }
  destruct (decide (i = -1)) as [->|Hne];
    [by rewrite convert_node_sentinel|].
  rewrite convert_node_step by done.
  destruct (list_getitem nodes i) as [nd|] eqn:Hget; [|done].
  apply list_getitem_elem_of in Hget.
  unfold leaf_encoding in Hleaf. rewrite Forall_forall in Hleaf.
  specialize (Hleaf nd Hget).
  intros H. apply bind_Ok_inv in H as (neg & Hneg & H).
  apply bind_Ok_inv in H as (pos & Hpos & H).
  destruct pos as [p|]; injection H as <-; simpl; [|done].
  destruct neg as [q|].
  - rewrite !length_app. apply IH in Hneg, Hpos. lia.
  - apply convert_node_None_inv in Hneg. apply Hleaf in Hneg.
    by rewrite Hneg, convert_node_sentinel in Hpos.
Qed.

Lemma converted_tree_is_full_witness :
  ∃ t, _convert_sklearn_node_to_tfdf_node 4 0 stump_nodes = Ok (Some t)
       ∧ length (leaf_values t) = S (length (decisions t)).
Proof.
  eexists. split; [reflexivity|].
  apply (converted_tree_is_full stump_nodes 4 0).
  - apply stump_nodes_well_formed.
  - reflexivity.
Defined.

(** * The converted model against the source estimator *)

Lemma collected_lookup task_type (rows : list node_row)
    (vals : list (list (list Q))) (nds : list node_dict) n nd :
  collect_nodes task_type (zip rows vals) = Ok nds →
  nds !! n = Some nd →
  ∃ row tv, rows !! n = Some row ∧ vals !! n = Some tv
            ∧ left_child nd = row_left_child row
            ∧ right_child nd = row_right_child row
            ∧ feature nd = row_feature row
            ∧ threshold nd = row_threshold row
            ∧ node_value task_type tv = Ok (value nd).
Proof.
  intros Hcollect Hnd. apply collect_nodes_rows in Hcollect.
  destruct (Forall2_lookup_l _ _ _ _ _ Hcollect Hnd)
    as ([row tv] & Hzip & Hl & Hr & Hf & Ht & Hv).
  apply lookup_zip_with_Some in Hzip as (row' & tv' & [= <- <-] & ? & ?).
  exists row, tv. by split_and!.
Qed.

(** The estimator's own walk over its rows reaches the index of the node
    that flat routing over the collected nodes reaches. *)
Lemma source_apply_collected task_type (rows : list node_row)
    (vals : list (list (list Q))) (nds : list node_dict) (x : list Q) :
  collect_nodes task_type (zip rows vals) = Ok nds →
  children_in_range nds → leaf_encoding nds →
  ∀ fuel i leaf, valid_index nds i →
    flat_route fuel nds i x = Ok leaf →
    ∃ j, source_apply fuel rows i x = Ok j
         ∧ 0 ≤ j ∧ nds !! Z.to_nat j = Some leaf.
Proof.
  intros Hcollect Hrange Hleaf.
  induction fuel as [|fuel IH]; intros i leaf Hi; [done|].
  simpl. destruct (list_getitem_valid nds i Hi) as (nd & -> & Hlook).
  destruct (collected_lookup _ _ _ _ _ _ Hcollect Hlook)
    as (row & tv & Hrow & _ & Hl & Hr & Hf & Ht & _).
  unfold valid_index in Hi.
  rewrite list_getitem_nonneg, Hrow by lia.
  rewrite <- Hl, <- Hr, <- Hf, <- Ht.
  destruct (decide (left_child nd = -1)) as [Hleft|Hleft].
  { intros [= <-]. exists i. split_and!; [done|lia|done]. }
  destruct (children_in_range_lookup _ _ _ Hrange Hlook) as [Hcl Hcr].
  pose proof (leaf_encoding_lookup _ _ _ Hleaf Hlook) as Hboth.
  destruct (row_get x (feature nd)) as [v|]; [|done].
  destruct (negb (higher_than v (threshold nd))).
  - apply IH. by destruct Hcl.
  - apply IH. destruct Hcr as [Hcr|]; [tauto|done].
Qed.

(** What the estimator predicts from the statistics of a node is what the
    value the converter builds for that node makes the target runtime
    output. *)
Lemma node_value_prediction (sklearn_tree : estimator) task_type
    (tv : list (list Q)) (v : AbstractValue) :
  _get_sklearn_tree_task_type sklearn_tree = Ok task_type →
  node_value task_type tv = Ok v →
  (output ← getitem tv 0;
   match n_classes_ sklearn_tree with
   | Some _ =>
     Ok (Probabilities ((λ c, c / foldr Qplus 0 output)%Q <$> output))
   | None => mean ← getitem output 0; Ok (Scalar mean)
   end) = Ok (leaf_prediction v).
Proof.
  rewrite task_type_cases. intros Htask Hv.
  destruct (n_outputs_ sklearn_tree) as [k|]; [|done].
  destruct (n_classes_ sklearn_tree) as [c|];
    destruct (decide (k = 1)); injection Htask as <-; try done;
    simpl in Hv; unfold getitem in *;
    destruct (list_getitem tv 0) as [output|]; simpl in *; try done.
  - by injection Hv as <-.
  - destruct (list_getitem output 0) as [mean|]; simpl in *; [|done].
    by injection Hv as <-.
Qed.

(** The model [convert] returns evaluates the translated tree on the columns
    of the row. *)
Lemma convert_predicts_by_route
    (fuel : nat) (sklearn_model : estimator) (path : option string)
    (fs : filesystem) (node_dicts : list node_dict) (t : AbstractNode)
    (x : list Q) :
  dispatch (mro (class_of sklearn_model)) = regression_implementation
  ∨ (dispatch (mro (class_of sklearn_model)) = classification_implementation
     ∧ is_Some (classes_ sklearn_model)) →
  _convert_sklearn_tree_to_tfdf_pytree fuel sklearn_model
    = Ok {| root := Some t |} →
  _convert_sklearn_node_to_tfdf_node fuel 0 node_dicts = Ok (Some t) →
  n_features_in_ sklearn_model = Some (Z.of_nat (length x)) →
  features_in_range node_dicts (Z.of_nat (length x)) →
  ∃ m, (convert fuel sklearn_model path fs).1 = Ok m
       ∧ predict m x = route (λ spec, row_get x (col_idx spec)) t.
Proof.
  intros Hclass Hpytree Ht Hwidth Hfeat.
  assert (∀ p fs0, ∃ objective,
            (_build_tfdf_model fuel sklearn_model p fs0).1
            = Ok {| model_objective := objective;
                    model_trees := [ {| root := Some t |} ] |}) as Hbuild.
  { intros p fs0. unfold _build_tfdf_model.
    destruct Hclass as [->|[-> [classes Hclasses]]].
    - rewrite build_regression_cases, Hpytree. eauto.
    - rewrite build_classification_cases, Hclasses, Hpytree. eauto. }
  destruct (convert_outcome fuel sklearn_model path fs) as (p & fs0 & ->).
  destruct (Hbuild p fs0) as [objective ->]. simpl.
  set (tm := {| model_objective := objective;
                model_trees := [ {| root := Some t |} ] |}).
  pose proof (split_features_from_nodes _ _ _ _ Ht) as Hsplits.
  assert (Forall (λ spec, name spec ∈ serving_signature tm
                          ∧ name spec = py_str (col_idx spec)
                          ∧ 0 ≤ col_idx spec < Z.of_nat (length x))
                 (split_features t)) as Hspecs.
  { apply Forall_forall. intros spec Hspec.
    rewrite Forall_forall in Hsplits.
    destruct (Hsplits spec Hspec) as (nd & Hnd & Hr & Hcol & Hname).
    assert (0 ≤ feature nd < Z.of_nat (length x)) as Hin.
    { unfold features_in_range in Hfeat.
      rewrite Forall_forall in Hfeat. by apply Hfeat. }
    split; [|split; [by rewrite Hcol|by rewrite Hcol]].
    unfold serving_signature. rewrite elem_of_remove_dups. simpl.
    rewrite app_nil_r. by apply list_elem_of_fmap_2. }
  destruct (slice_columns_Ok (Z.of_nat (length x)) (serving_signature tm))
    as [ks Hks].
  { apply Forall_forall. intros i Hi.
    unfold serving_signature in Hi. rewrite elem_of_remove_dups in Hi.
    simpl in Hi. rewrite app_nil_r in Hi.
    apply list_elem_of_fmap in Hi as (spec & -> & Hspec).
    rewrite Forall_forall in Hspecs.
    destruct (Hspecs spec Hspec) as (_ & -> & Hcol).
    exists (col_idx spec). rewrite py_int_str. split; [done|lia]. }
  unfold wrap_model. rewrite Hwidth. simpl. rewrite Hks. simpl.
  eexists. split; [done|].
  unfold predict. simpl. rewrite decide_True by done.
  unfold call_tfdf_model. simpl.
  apply route_ext. eapply Forall_impl; [exact Hspecs|].
  intros spec (Hin & Hname & Hcol). simpl.
  rewrite sliced_inputs_lookup, decide_True by done.
  rewrite Hname, py_int_str. simpl.
  rewrite list_getitem_nonneg by lia.
  unfold row_get. by rewrite decide_True by lia.
Qed.

(** C1. For a fitted single-output regression or single-label
    classification tree estimator of a registered class (its task type
    resolves, the value loop succeeds on its non-empty arrays, and its flat
    tree is well formed: child indices in range, both children or none, no
    node its own ancestor, split features inside the input) and every input
    row of the declared width, the translated tree and the converted model
    both predict what the source estimator predicts: the scalar stored for
    the leaf the estimator reaches by flat-array routing (left child iff the
    feature value is not greater than the threshold) for regression, and for
    classification that leaf's class counts divided by their sum, so the
    same probability vector and hence the same arg-max class. *)
Theorem converted_tree_predicts_like_source
    (fuel : nat) (sklearn_model : estimator) (path : option string)
    (fs : filesystem) (data : tree_state) (task_type : TaskType)
    (node_dicts : list node_dict) (x : list Q) :
  dispatch (mro (class_of sklearn_model)) = regression_implementation
  ∨ (dispatch (mro (class_of sklearn_model)) = classification_implementation
     ∧ is_Some (classes_ sklearn_model)) →
  tree_ sklearn_model = Some data →
  _get_sklearn_tree_task_type sklearn_model = Ok task_type →
  collect_nodes task_type (zip (nodes data) (values data)) = Ok node_dicts →
  node_dicts ≠ [] → children_in_range node_dicts →
  leaf_encoding node_dicts → acyclic node_dicts →
  n_features_in_ sklearn_model = Some (Z.of_nat (length x)) →
  features_in_range node_dicts (Z.of_nat (length x)) →
  (length node_dicts < fuel)%nat →
  ∃ y t m,
    source_predict fuel sklearn_model x = Ok y
    ∧ _convert_sklearn_tree_to_tfdf_pytree fuel sklearn_model
      = Ok {| root := Some t |}
    ∧ leaf_prediction <$> route (λ spec, row_get x (col_idx spec)) t
      = Some y
    ∧ (convert fuel sklearn_model path fs).1 = Ok m
    ∧ leaf_prediction <$> predict m x = Some y.
Proof.
  intros Hclass Hdata Htask Hcollect Hne Hrange Hleaf Hacyc Hwidth Hfeat
    Hfuel.
  destruct (route_converted_root node_dicts x fuel)
    as (t & leaf & Ht & Hflat & Hroute); [done..|].
  assert (valid_index node_dicts 0) as H0.
  { unfold valid_index. destruct node_dicts; [done|]. simpl. lia. }
  destruct (source_apply_collected _ _ _ _ x Hcollect Hrange Hleaf
              fuel 0 leaf H0 Hflat) as (j & Hj & Hj0 & Hjleaf).
  destruct (collected_lookup _ _ _ _ _ _ Hcollect Hjleaf)
    as (row & tv & _ & Htv & _ & _ & _ & _ & Hv).
  assert (_convert_sklearn_tree_to_tfdf_pytree fuel sklearn_model
          = Ok {| root := Some t |}) as Hpytree.
  { unfold _convert_sklearn_tree_to_tfdf_pytree.
    rewrite Hdata, Htask. simpl. rewrite Hcollect. simpl. by rewrite Ht. }
  destruct (convert_predicts_by_route fuel sklearn_model path fs
              node_dicts t x) as (m & Hm & Hpredict); [done..|].
  exists (leaf_prediction (value leaf)), t, m. split_and!; [|done| |done|].
  - unfold source_predict. rewrite Hdata. simpl. rewrite Hj. simpl.
    assert (getitem (values data) j = Ok tv) as ->.
    { unfold getitem. rewrite list_getitem_nonneg by done. by rewrite Htv. }
    simpl. by apply node_value_prediction with task_type.
  - by rewrite Hroute.
  - by rewrite Hpredict, Hroute.
Qed.

Lemma converted_tree_predicts_like_source_witness :
  ∃ y t m,
    source_predict 4 stump_classifier [3 # 5; 0; 0; 0; 0]%Q = Ok y
    ∧ _convert_sklearn_tree_to_tfdf_pytree 4 stump_classifier
      = Ok {| root := Some t |}
    ∧ leaf_prediction
        <$> route (λ spec, row_get [3 # 5; 0; 0; 0; 0]%Q (col_idx spec)) t
      = Some y
    ∧ (convert 4 stump_classifier None ∅).1 = Ok m
    ∧ leaf_prediction <$> predict m [3 # 5; 0; 0; 0; 0]%Q = Some y.
Proof.
  eapply (converted_tree_predicts_like_source 4 stump_classifier None ∅
            stump_counts SINGLE_LABEL_CLASSIFICATION).
  - right. split; [reflexivity|]. by eexists.
  - reflexivity.
  - reflexivity.
  - reflexivity.
  - discriminate.
  - by_computation.
  - by_computation.
  - apply acyclic_of_children_after_parent. by_computation.
  - reflexivity.
  - by_computation.
  - simpl. lia.
Defined.

(** On the two-class stump the estimator and the converted model both give
    class 1 three chances in four for a row that goes right, and a regressor
    gives the mean of the right leaf. *)
Example source_and_converted_predictions :
  source_predict 4 stump_classifier [3 # 5; 0; 0; 0; 0]%Q
  = Ok (Probabilities [1 / (1 + (3 + 0)); 3 / (1 + (3 + 0))]%Q)
  ∧ (m ← (convert 4 stump_classifier None ∅).1;
     Ok (predict m [3 # 5; 0; 0; 0; 0]%Q))
    = Ok (Some (ProbabilityValue [1 / (1 + (3 + 0)); 3 / (1 + (3 + 0))]%Q))
  ∧ source_predict 4 stump_regressor [3 # 5; 0; 0; 0; 0]%Q
    = Ok (Scalar 20).
Proof. split_and!; reflexivity. Qed.
